(** * Shop4Me /go redirect: a shallow embedding of functions/index.js

    The handler [go] resolves one outbound URL from the query parameters
    [to], [asin] and [tag], checks a direct URL against a host allowlist,
    builds the click document and redirects.

    Modelling choices.
    - A string is a sequence of code units; this development covers the code
      units U+0000..U+00FF, one [ascii] each.  The three regular expressions
      and the allowlist are ASCII, so a code unit above U+00FF behaves in them
      as the non-ASCII code units below U+0100 do.
    - A query parameter or header is the string the runtime delivers, or
      absent ([None]).  A repeated key, which the query parser delivers as
      an array, reaches the handler's [toString()] and [String()] as its
      elements joined by commas; nested objects are not covered.
    - The class [URL] belongs to the runtime: its constructor is a parameter
      of the handler ([URL_new], [None] when it throws), and the properties
      hold for every such constructor.
    - The effects of one call are collected in an [outcome]: the header set,
      the documents handed to the store and the response.  With the inputs
      of this alphabet nothing inside the handler's [try] throws, so its
      [catch] (500, [Server error]) is not reached here.  The runtime's
      [encodeURIComponent] throws on an unpaired surrogate, a code unit
      outside this alphabet, and the handler then answers from its [catch];
      the properties of the built URL and of the responses are therefore
      stated for what is returned and for the responses that are sent, not
      as a promise that a redirect is sent. *)

From Stdlib Require Import String Ascii List Bool Arith NArith Lia.
From stdpp Require Import gmap strings.
Import ListNotations.

Local Open Scope string_scope.
Local Open Scope bool_scope.

(** [simpl] unfolds an append whose left operand starts with a constructor. *)
#[local] Arguments String.append !s1 s2 : simpl nomatch.

(** ** Code units *)

Module CodeUnit.

Definition code (c : ascii) : N := N_of_ascii c.

Definition between (lo hi : N) (c : ascii) : bool :=
  ((lo <=? code c) && (code c <=? hi))%N.

Definition isUpper (c : ascii) : bool := between 65 90 c.
Definition isLower (c : ascii) : bool := between 97 122 c.
Definition isDigit (c : ascii) : bool := between 48 57 c.

(** WhiteSpace and LineTerminator of ECMAScript below U+0100:
    TAB, LF, VT, FF, CR, SP and NBSP. *)
Definition isWhiteSpace (c : ascii) : bool :=
  between 9 13 c || (code c =? 32)%N || (code c =? 160)%N.

Definition upper (c : ascii) : ascii :=
  if isLower c then ascii_of_N (code c - 32) else c.

(** Lower case mapping of the code units below U+0100: the ASCII letters
    and the Latin-1 capitals U+00C0..U+00DE without the sign U+00D7. *)
Definition lower (c : ascii) : ascii :=
  if isUpper c || (between 192 222 c && negb (code c =? 215)%N)
  then ascii_of_N (code c + 32) else c.

Definition eqb (a b : ascii) : bool := (code a =? code b)%N.

End CodeUnit.

(** ** String.prototype methods used by the handler *)

Definition truthy (s : string) : bool :=
  match s with EmptyString => false | String _ _ => true end.

(** JavaScript [a || b] on strings. *)
Definition or_else (a b : string) : string := if truthy a then a else b.

(** [(v || "").toString()] for an optional string. *)
Definition text (v : option string) : string :=
  match v with Some s => s | None => "" end.

(** [s || null]. *)
Definition or_null (s : string) : option string :=
  if truthy s then Some s else None.

Fixpoint trimStart (s : string) : string :=
  match s with
  | String c t => if CodeUnit.isWhiteSpace c then trimStart t else s
  | EmptyString => EmptyString
  end.

Fixpoint trimEnd (s : string) : string :=
  match s with
  | String c t =>
      match trimEnd t with
      | EmptyString => if CodeUnit.isWhiteSpace c then EmptyString else String c EmptyString
      | t' => String c t'
      end
  | EmptyString => EmptyString
  end.

Definition trim (s : string) : string := trimEnd (trimStart s).

Fixpoint map_string (f : ascii -> ascii) (s : string) : string :=
  match s with
  | String c t => String (f c) (map_string f t)
  | EmptyString => EmptyString
  end.

Definition toLowerCase (s : string) : string := map_string CodeUnit.lower s.

(** [toUpperCase] on the ASCII range: the handler applies it only to what the
    class [[A-Z0-9]] captured under the flag i. *)
Definition toUpperCase (s : string) : string := map_string CodeUnit.upper s.

(** [s.slice(0, n)]. *)
Definition slice0 (n : nat) (s : string) : string := substring 0 n s.

(** [s.split(",")[0]]: the part before the first comma. *)
Fixpoint split_comma_0 (s : string) : string :=
  match s with
  | String c t => if CodeUnit.eqb c "," then EmptyString else String c (split_comma_0 t)
  | EmptyString => EmptyString
  end.

(** ** Regular expressions

    A backtracking matcher in continuation style for the constructs the three
    literals of the source use: characters, classes, sequence, alternation,
    [r?], [r{n}], one capturing group, [^] and [$] (no flag m). *)

Module RegExp.

Inductive regex : Type :=
| Empty
| Char (c : ascii)
| Class (ranges : list (ascii * ascii))
| Seq (r1 r2 : regex)
| Alt (r1 r2 : regex)
| Opt (r : regex)
| Count (n : nat) (r : regex)
| Group (g : nat) (r : regex)
| Bol
| Eol.

(** The characters of [w] in sequence, followed by [r]. *)
Fixpoint lit (w : string) (r : regex) : regex :=
  match w with
  | String c t => Seq (Char c) (lit t r)
  | EmptyString => r
  end.

Record mstate : Type := MState {
  endIndex : nat;
  rest : string;
  captures : list (nat * string)
}.

Definition cont : Type := mstate -> option mstate.

(** Canonicalize of the specification, without the flag u: upper case, and a
    code unit outside ASCII never becomes an ASCII one. *)
Definition canonicalize (i : bool) (c : ascii) : ascii :=
  if i then CodeUnit.upper c else c.

Definition in_ranges (ranges : list (ascii * ascii)) (c : ascii) : bool :=
  existsb (fun r => CodeUnit.between (CodeUnit.code (fst r)) (CodeUnit.code (snd r)) c) ranges.

(** A class matches [ch] when one of its members has the canonical form of
    [ch]; the members with the canonical form of [ch] are [ch] itself and
    its two case variants. *)
Definition class_has (i : bool) (ranges : list (ascii * ascii)) (ch : ascii) : bool :=
  if i
  then in_ranges ranges ch || in_ranges ranges (CodeUnit.upper ch)
       || (CodeUnit.isUpper ch && in_ranges ranges (ascii_of_N (CodeUnit.code ch + 32)))
  else in_ranges ranges ch.

Definition advance (p : ascii -> bool) (x : mstate) (k : cont) : option mstate :=
  match rest x with
  | String ch t =>
      if p ch then k (MState (S (endIndex x)) t (captures x)) else None
  | EmptyString => None
  end.

Definition set_capture (g : nat) (x y : mstate) : mstate :=
  MState (endIndex y) (rest y)
         ((g, substring 0 (endIndex y - endIndex x) (rest x)) :: captures y).

Fixpoint matcher (i : bool) (r : regex) (x : mstate) (k : cont) {struct r} : option mstate :=
  match r with
  | Empty => k x
  | Char c => advance (fun ch => CodeUnit.eqb (canonicalize i ch) (canonicalize i c)) x k
  | Class ranges => advance (class_has i ranges) x k
  | Seq r1 r2 => matcher i r1 x (fun y => matcher i r2 y k)
  | Alt r1 r2 =>
      match matcher i r1 x k with
      | Some z => Some z
      | None => matcher i r2 x k
      end
  | Opt r1 =>
      match matcher i r1 x k with
      | Some z => Some z
      | None => k x
      end
  | Count n r1 =>
      (fix rep (n : nat) (x : mstate) : option mstate :=
         match n with
         | O => k x
         | S n' => matcher i r1 x (rep n')
         end) n x
  | Group g r1 => matcher i r1 x (fun y => k (set_capture g x y))
  | Bol => if (endIndex x =? 0)%nat then k x else None
  | Eol => match rest x with EmptyString => k x | String _ _ => None end
  end.

Record match_result : Type := MatchResult {
  index : nat;
  matched : string;
  groups : list (nat * string)
}.

Fixpoint lookup_group (g : nat) (l : list (nat * string)) : option string :=
  match l with
  | (h, s) :: t => if (h =? g)%nat then Some s else lookup_group g t
  | [] => None
  end.

(** [m[g]] of a match array. *)
Definition group (g : nat) (m : match_result) : option string :=
  lookup_group g (groups m).

(** RegExpBuiltinExec without the flags g and y: the first index, from 0
    to the length of the input, at which the pattern matches. *)
Fixpoint exec_from (i : bool) (r : regex) (idx : nat) (s : string) : option match_result :=
  match matcher i r (MState idx s []) Some with
  | Some y => Some (MatchResult idx (substring 0 (endIndex y - idx) s) (captures y))
  | None =>
      match s with
      | String _ t => exec_from i r (S idx) t
      | EmptyString => None
      end
  end.

Definition exec (i : bool) (r : regex) (s : string) : option match_result :=
  exec_from i r 0 s.

Definition test (i : bool) (r : regex) (s : string) : bool :=
  match exec i r s with Some _ => true | None => false end.

End RegExp.

Import RegExp.

(** ** Config *)

Definition ENABLE_LOGGING : bool := true.
Definition DEFAULT_AFF_TAG : string := "shop4me0e-21".
Definition AMAZON_HOST : string := "https://www.amazon.in".

Definition ALLOWLIST_HOSTS : gset string :=
  {[ "www.amazon.in"; "amazon.in"; "amzn.to"; "m.amazon.in" ]}.

(** ** The three regular expression literals *)

Definition alnum : regex := Class [("A", "Z"); ("0", "9")]%char.

(** [(?:[/?]|$)] *)
Definition boundary : regex := Alt (Class [("/", "/"); ("?", "?")]%char) Eol.

(** [/^https?:\/\//i] *)
Definition re_scheme : regex :=
  Seq Bol (lit "http" (Seq (Opt (Char "s")) (lit "://" Empty))).

(** [/\/(?:dp|gp\/product|product)\/([A-Z0-9]{10})(?:[/?]|$)/i] *)
Definition re_path : regex :=
  Seq (Char "/")
      (Seq (Alt (lit "dp" Empty) (Alt (lit "gp/product" Empty) (lit "product" Empty)))
           (Seq (Char "/") (Seq (Group 1 (Count 10 alnum)) boundary))).

(** [/([A-Z0-9]{10})(?:[/?]|$)/i] *)
Definition re_token : regex := Seq (Group 1 (Count 10 alnum)) boundary.

(** ** extractAsin *)

(** [m && m[1]] as the capture when it is truthy. *)
Definition truthy_group (m : option match_result) (g : nat) : option string :=
  match m with
  | Some r =>
      match group g r with
      | Some s => if truthy s then Some s else None
      | None => None
      end
  | None => None
  end.

Definition extractAsin (s : string) : string :=
  if negb (truthy s) then ""
  else
    let str := trim s in
    match truthy_group (exec true re_path str) 1 with
    | Some id => toUpperCase id
    | None =>
        match truthy_group (exec true re_token str) 1 with
        | Some id => toUpperCase id
        | None => ""
        end
    end.

(** ** buildAmazonAffiliateUrl *)

Definition isUnreserved (c : ascii) : bool :=
  CodeUnit.isUpper c || CodeUnit.isLower c || CodeUnit.isDigit c
  || existsb (CodeUnit.eqb c) (list_ascii_of_string "-_.!~*'()").

Definition hex_digit (n : N) : ascii :=
  match String.get (N.to_nat n) "0123456789ABCDEF" with
  | Some d => d
  | None => "0"%char
  end.

Definition percent (byte : N) : string :=
  String "%" (String (hex_digit (byte / 16)) (String (hex_digit (byte mod 16)) EmptyString)).

(** The UTF-8 octets of a code unit below U+0100. *)
Definition utf8 (c : ascii) : list N :=
  if (CodeUnit.code c <? 128)%N then [CodeUnit.code c]
  else [(192 + CodeUnit.code c / 64)%N; (128 + CodeUnit.code c mod 64)%N].

Fixpoint encodeURIComponent (s : string) : string :=
  match s with
  | String c t =>
      (if isUnreserved c then String c EmptyString
       else String.concat EmptyString (map percent (utf8 c)))
      +:+ encodeURIComponent t
  | EmptyString => EmptyString
  end.

Definition buildAmazonAffiliateUrl (asin tag : string) : string :=
  let t := or_else (trim (or_else tag DEFAULT_AFF_TAG)) DEFAULT_AFF_TAG in
  AMAZON_HOST +:+ "/dp/" +:+ encodeURIComponent asin +:+ "?tag=" +:+ encodeURIComponent t.

(** ** The request, the response and the click document *)

Record request : Type := Request {
  req_query : gmap string string;
  req_headers : gmap string string;
  req_ip : option string
}.

Inductive FieldValue : Type := serverTimestamp.

Record docData : Type := DocData {
  targetUrl : string;
  asin : option string;
  tag : string;
  src : option string;
  created_by : option string;
  created_at : option string;
  ip : option string;
  userAgent : option string;
  ts : FieldValue
}.

Inductive reply : Type :=
| Send (status : nat) (body : string)
| Redirect (status : nat) (location : string).

(** What one call of the handler does: the headers it sets, the documents it
    hands to [db.collection(clicks).add] and the response it sends. *)
Record outcome : Type := Outcome {
  res_headers : list (string * string);
  added : list docData;
  res : reply
}.

(** The parts of a [URL] object the handler reads: [hostname] and
    [toString()]. *)
Record URL : Type := MkURL {
  hostname : string;
  href : string
}.

Section Handler.

(** [new URL(raw)] of the runtime: the object, or [None] when the
    constructor throws. *)
Variable URL_new : string -> option URL.

Definition safeUrl (raw : string) : option URL :=
  match URL_new raw with
  | Some u => Some u
  | None => None
  end.

Definition isAllowedTarget (urlObj : option URL) : bool :=
  match urlObj with
  | None => false
  | Some u =>
      let host := toLowerCase (or_else (hostname u) "") in
      bool_decide (host ∈ ALLOWLIST_HOSTS)
  end.

(** The click document of lines 103-125. *)
Definition clickDoc (req : request) (tagParam targetUrl : string) : docData :=
  let now := serverTimestamp in
  let ip :=
    or_else (trim (split_comma_0 (text (req_headers req !! "x-forwarded-for"))))
            (or_else (text (req_ip req)) "") in
  let ua := text (req_headers req !! "user-agent") in
  let asinForLog :=
    or_else (extractAsin (text (req_query req !! "asin")))
            (or_else (extractAsin targetUrl) "") in
  {| targetUrl := targetUrl;
     asin := or_null asinForLog;
     tag := or_else (or_else tagParam DEFAULT_AFF_TAG) DEFAULT_AFF_TAG;
     src := or_null (slice0 120 (text (req_query req !! "src")));
     created_by := or_null (slice0 200 (text (req_query req !! "created_by")));
     created_at := or_null (slice0 80 (text (req_query req !! "created_at")));
     ip := or_null ip;
     userAgent := or_null ua;
     ts := now |}.

Definition no_store : list (string * string) :=
  [("Cache-Control", "no-store, max-age=0")].

(** Lines 84-92, the branch [if (to)]: the response of an early return, or
    the target.  [u.toString()] on [null] would throw into the handler of
    line 135; [isAllowedTarget] has refused [null] before. *)
Definition direct_branch (to : string) : reply + string :=
  if negb (test true re_scheme to) then
    inl (Send 400 "Invalid 'to' URL (must start with http/https).")
  else
    let u := safeUrl to in
    if negb (isAllowedTarget u) then inl (Send 400 "Target host not allowed.")
    else
      match u with
      | Some u' => inr (href u')
      | None => inl (Send 500 "Server error")
      end.

(** Lines 94-98, the branch [else]. *)
Definition identifier_branch (asinParam tagParam : string) : reply + string :=
  let asin := extractAsin asinParam in
  if negb (truthy asin) then
    inl (Send 400 "Missing target. Provide ?to=<url> or ?asin=<ASIN>.")
  else inr (buildAmazonAffiliateUrl asin tagParam).

(** Lines 76-99. *)
Definition resolve (req : request) : reply + string :=
  let to := trim (text (req_query req !! "to")) in
  let asinParam := trim (text (req_query req !! "asin")) in
  let tagParam := trim (text (req_query req !! "tag")) in
  if truthy to then direct_branch to
  else identifier_branch asinParam tagParam.

Definition go (req : request) : outcome :=
  let tagParam := trim (text (req_query req !! "tag")) in
  match resolve req with
  | inl early => Outcome no_store [] early
  | inr targetUrl =>
      let docs := if ENABLE_LOGGING then [clickDoc req tagParam targetUrl] else [] in
      Outcome no_store docs (Redirect 302 targetUrl)
  end.

End Handler.

(** * Vocabulary of the properties *)

Definition isAlnum (c : ascii) : bool :=
  CodeUnit.isUpper c || CodeUnit.isLower c || CodeUnit.isDigit c.

Definition isUpperAlnum (c : ascii) : bool :=
  CodeUnit.isUpper c || CodeUnit.isDigit c.

Definition alnum_ranges : list (ascii * ascii) := [("A", "Z"); ("0", "9")]%char.
Definition boundary_ranges : list (ascii * ascii) := [("/", "/"); ("?", "?")]%char.

Ltac each_code_unit c :=
  destruct c as [[|] [|] [|] [|] [|] [|] [|] [|]]; vm_compute; try reflexivity; try congruence.

(** [s] without a prefix that equals [w] up to canonical form. *)
Fixpoint strip (i : bool) (w s : string) : option string :=
  match w with
  | EmptyString => Some s
  | String c w' =>
      match s with
      | String ch t =>
          if CodeUnit.eqb (canonicalize i ch) (canonicalize i c) then strip i w' t else None
      | EmptyString => None
      end
  end.

(** [s] without its first [n] code units, all of which satisfy [p]. *)
Fixpoint take_class (p : ascii -> bool) (n : nat) (s : string) : option string :=
  match n with
  | O => Some s
  | S n' =>
      match s with
      | String ch t => if p ch then take_class p n' t else None
      | EmptyString => None
      end
  end.

(** [s] is empty or begins with [/] or [?]. *)
Definition is_boundary (s : string) : bool :=
  match s with
  | EmptyString => true
  | String c _ => CodeUnit.eqb c "/" || CodeUnit.eqb c "?"
  end.

(** What the pattern of the fallback tier finds at the start of [s]. *)
Definition token_at (s : string) : option string :=
  match take_class isAlnum 10 s with
  | Some t => if is_boundary t then Some (substring 0 10 s) else None
  | None => None
  end.

(** What the rest of the path pattern finds behind the first [/], for the
    alternative [w]. *)
Definition after_keyword (w s : string) : option string :=
  match strip true w s with
  | Some u =>
      match strip true "/" u with
      | Some v => token_at v
      | None => None
      end
  | None => None
  end.

(** What the path pattern finds at the start of [s]. *)
Definition path_at (s : string) : option string :=
  match strip true "/" s with
  | Some t =>
      match after_keyword "dp" t with
      | Some id => Some id
      | None =>
          match after_keyword "gp/product" t with
          | Some id => Some id
          | None => after_keyword "product" t
          end
      end
  | None => None
  end.

(** The first suffix of [s], from the left, at which [f] finds something. *)
Fixpoint find_first (f : string -> option string) (s : string) : option string :=
  match f s with
  | Some v => Some v
  | None =>
      match s with
      | String _ t => find_first f t
      | EmptyString => None
      end
  end.

Fixpoint all_chars (p : ascii -> bool) (s : string) : bool :=
  match s with
  | String c t => p c && all_chars p t
  | EmptyString => true
  end.

Definition find_path : string -> option string := find_first path_at.
Definition find_token : string -> option string := find_first token_at.

(** Ten letters or digits, in either case. *)
Definition is_id (id : string) : Prop :=
  String.length id = 10 /\ all_chars isAlnum id = true.

(** [dp], [gp/product] or [product], in any mix of cases. *)
Definition keyword (kw : string) : Prop :=
  toUpperCase kw = "DP" \/ toUpperCase kw = "GP/PRODUCT" \/ toUpperCase kw = "PRODUCT".

(** What follows a match: the end of the input, [/] or [?]. *)
Definition at_boundary (suf : string) : Prop := is_boundary suf = true.

(** [s] splits into [pre], a path-shaped match with identifier [id], and [suf]. *)
Definition path_match (s pre kw id suf : string) : Prop :=
  s = pre +:+ "/" +:+ kw +:+ "/" +:+ id +:+ suf
  /\ keyword kw /\ is_id id /\ at_boundary suf.

(** [s] splits into [pre], ten letters or digits and [suf] at a boundary. *)
Definition token_match (s pre id suf : string) : Prop :=
  s = pre +:+ id +:+ suf /\ is_id id /\ at_boundary suf.

(** The maximal runs of letters and digits of [s], each with the code unit
    that follows it ([None] at the end of [s]); [cur] is the run being read. *)
Fixpoint runs_from (cur s : string) : list (string * option ascii) :=
  match s with
  | EmptyString => if truthy cur then [(cur, None)] else []
  | String c t =>
      if isAlnum c then runs_from (cur +:+ String c EmptyString) t
      else (if truthy cur then [(cur, Some c)] else []) ++ runs_from EmptyString t
  end.

Definition alnum_runs (s : string) : list (string * option ascii) :=
  runs_from EmptyString s.

(** The run is followed by the end of the input, [/] or [?]. *)
Definition bounded (r : string * option ascii) : bool :=
  match snd r with
  | None => true
  | Some c => CodeUnit.eqb c "/" || CodeUnit.eqb c "?"
  end.

Definition too_short (r : string * option ascii) : Prop :=
  bounded r = true -> String.length (fst r) < 10.

(** The claim as the specification words it: every maximal run of letters
    and digits has a length other than ten. *)
Definition no_run_of_ten (s : string) : Prop :=
  Forall (fun r => String.length (fst r) <> 10) (alnum_runs s).

(** [s] begins with [http://] or [https://], in any mix of cases. *)
Definition starts_with_scheme (s : string) : Prop :=
  toLowerCase (slice0 7 s) = "http://" \/ toLowerCase (slice0 8 s) = "https://".

Fixpoint each (P : ascii -> Prop) (w : string) : Prop :=
  match w with
  | String p w' => P p /\ each P w'
  | EmptyString => True
  end.

(** The pattern character [p] matches, under the flag i, the code units whose
    lower case is [p]. *)
Definition folds (p : ascii) : Prop :=
  forall c, CodeUnit.eqb (canonicalize true c) (canonicalize true p) = true <-> CodeUnit.lower c = p.

(** ** A reference instance of the URL constructor

    The properties of the handler below hold for every [URL_new].  The
    closed examples run the handler with this instance: it reads absolute
    http and https URLs whose host is made of letters and dots and whose
    path and query are made of letters, digits and [/ ? = & - _], lower-cases
    scheme and host and gives an empty path as [/].  It refuses every other
    input, also inputs that the runtime accepts. *)

Module UrlModel.

Definition isLetter (c : ascii) : bool := CodeUnit.isUpper c || CodeUnit.isLower c.

Definition host_unit (c : ascii) : bool := isLetter c || CodeUnit.eqb c ".".

Definition tail_unit (c : ascii) : bool :=
  isAlnum c || existsb (CodeUnit.eqb c) (list_ascii_of_string "/?=&-_").

Fixpoint span (p : ascii -> bool) (s : string) : string * string :=
  match s with
  | String c t =>
      if p c then let (a, b) := span p t in (String c a, b) else (EmptyString, s)
  | EmptyString => (EmptyString, EmptyString)
  end.

Definition after_scheme (scheme r : string) : option URL :=
  let (host, tail) := span host_unit r in
  match host, tail with
  | String h _, EmptyString =>
      if isLetter h
      then Some (MkURL (toLowerCase host) (scheme +:+ "://" +:+ toLowerCase host +:+ "/"))
      else None
  | String h _, String c _ =>
      if isLetter h && all_chars tail_unit tail
      then if CodeUnit.eqb c "/"
           then Some (MkURL (toLowerCase host) (scheme +:+ "://" +:+ toLowerCase host +:+ tail))
           else if CodeUnit.eqb c "?"
           then Some (MkURL (toLowerCase host) (scheme +:+ "://" +:+ toLowerCase host +:+ "/" +:+ tail))
           else None
      else None
  | EmptyString, _ => None
  end.

Definition parse (raw : string) : option URL :=
  match strip true "https://" raw with
  | Some r => after_scheme "https" r
  | None =>
      match strip true "http://" raw with
      | Some r => after_scheme "http" r
      | None => None
      end
  end.

End UrlModel.

Definition to_param (req : request) : string := trim (text (req_query req !! "to")).
Definition asin_param (req : request) : string := trim (text (req_query req !! "asin")).
Definition tag_param (req : request) : string := trim (text (req_query req !! "tag")).

(** One of the four configured hosts, to the letter. *)
Definition allowed_host (h : string) : Prop :=
  h = "www.amazon.in" \/ h = "amazon.in" \/ h = "amzn.to" \/ h = "m.amazon.in".

(** The tag the built URL carries: the trimmed parameter, or the default. *)
Definition effective_tag (req : request) : string :=
  if truthy (tag_param req) then tag_param req else "shop4me0e-21".

(** ** Vocabulary of the further properties *)

(** Only white space. *)
Definition is_blank (s : string) : Prop := all_chars CodeUnit.isWhiteSpace s = true.

(** A code unit that [encodeURIComponent] emits: an unreserved one or the
    percent sign of an escape. *)
Definition url_safe (c : ascii) : bool := isUnreserved c || CodeUnit.eqb c "%".

(** A field of the click document against its parameter: null for an absent
    or empty parameter, else the first [n] code units of it (all of it when
    it has no more). *)
Definition truncated (n : nat) (param field : option string) : Prop :=
  match field with
  | None => text param = EmptyString
  | Some v =>
      v <> EmptyString
      /\ String.length v = Nat.min n (String.length (text param))
      /\ exists rest, text param = v +:+ rest
  end.

(** What [encodeURIComponent] writes for one code unit. *)
Definition escaped (c : ascii) : string :=
  if isUnreserved c then String c EmptyString
  else String.concat EmptyString (map percent (utf8 c)).

(** The tag that [buildAmazonAffiliateUrl] embeds for the argument [tag]. *)
Definition embedded_tag (tag : string) : string :=
  if truthy (trim tag) then trim tag else "shop4me0e-21".

(** The value of an upper-case hexadecimal digit. *)
Definition hex_value (c : ascii) : option N :=
  if CodeUnit.isDigit c then Some (CodeUnit.code c - 48)%N
  else if CodeUnit.between 65 70 c then Some (CodeUnit.code c - 55)%N
  else None.

(** The octet of a leading percent escape and what follows it. *)
Definition read_escape (s : string) : option (N * string) :=
  match s with
  | String p (String h (String l t)) =>
      if CodeUnit.eqb p "%" then
        match hex_value h, hex_value l with
        | Some a, Some b => Some ((16 * a + b)%N, t)
        | _, _ => None
        end
      else None
  | _ => None
  end.

(** Reads back the code unit that starts an output of [encodeURIComponent]:
    a plain code unit, one escaped octet below 128, or two escaped octets
    of UTF-8. *)
Definition unescape_head (s : string) : option (ascii * string) :=
  match s with
  | EmptyString => None
  | String c t =>
      if CodeUnit.eqb c "%" then
        match read_escape s with
        | Some (b, r) =>
            if (b <? 128)%N then Some (ascii_of_N b, r)
            else
              match read_escape r with
              | Some (b', r') => Some (ascii_of_N ((b - 192) * 64 + (b' - 128)), r')
              | None => None
              end
        | None => None
        end
      else Some (c, t)
  end.

(** * Properties *)

(** ** Code units *)

Lemma class_alnum c : class_has true alnum_ranges c = isAlnum c.
Proof. each_code_unit c. Qed.

Lemma class_boundary c :
  class_has true boundary_ranges c = CodeUnit.eqb c "/" || CodeUnit.eqb c "?".
Proof. each_code_unit c. Qed.

Lemma upper_of_alnum c : isAlnum c = true -> isUpperAlnum (CodeUnit.upper c) = true.
Proof. each_code_unit c. Qed.

Lemma upper_fixed c : isUpperAlnum c = true -> CodeUnit.upper c = c.
Proof. each_code_unit c. Qed.

Lemma upper_alnum_is_alnum c : isUpperAlnum c = true -> isAlnum c = true.
Proof. each_code_unit c. Qed.

Lemma alnum_not_space c : isAlnum c = true -> CodeUnit.isWhiteSpace c = false.
Proof. each_code_unit c. Qed.

Lemma alnum_not_boundary c :
  isAlnum c = true -> CodeUnit.eqb c "/" || CodeUnit.eqb c "?" = false.
Proof. each_code_unit c. Qed.

Lemma alnum_unreserved c : isAlnum c = true -> isUnreserved c = true.
Proof. each_code_unit c. Qed.

Lemma eqb_eq (a b : ascii) : CodeUnit.eqb a b = true <-> a = b.
Proof.
  unfold CodeUnit.eqb, CodeUnit.code. rewrite N.eqb_eq. split.
  - intros H. rewrite <- (ascii_N_embedding a), <- (ascii_N_embedding b). now rewrite H.
  - now intros ->.
Qed.

(** ** The matcher on the shapes of the three literals *)

Lemma matcher_lit i w r x k :
  matcher i (lit w r) x k =
  match strip i w (rest x) with
  | Some t => matcher i r (MState (endIndex x + String.length w) t (captures x)) k
  | None => None
  end.
Proof.
  revert x. induction w as [|c w IH]; intros [e s caps]; simpl.
  - now rewrite Nat.add_0_r.
  - unfold advance; simpl. destruct s as [|ch t]; [reflexivity|].
    destruct (CodeUnit.eqb _ _); [|reflexivity].
    rewrite IH; simpl. now rewrite Nat.add_succ_r.
Qed.

Lemma matcher_count i ranges n x k :
  matcher i (Count n (Class ranges)) x k =
  match take_class (class_has i ranges) n (rest x) with
  | Some t => k (MState (endIndex x + n) t (captures x))
  | None => None
  end.
Proof.
  simpl. revert x. induction n as [|n IH]; intros [e s caps]; simpl.
  - now rewrite Nat.add_0_r.
  - unfold advance; simpl. destruct s as [|ch t]; [reflexivity|].
    destruct (class_has i ranges ch); [|reflexivity].
    rewrite IH; simpl. now rewrite Nat.add_succ_r.
Qed.

Lemma take_class_ext p q n s :
  (forall c, p c = q c) -> take_class p n s = take_class q n s.
Proof.
  intros E. revert s. induction n as [|n IH]; intros [|c t]; simpl; try reflexivity.
  rewrite E, IH. reflexivity.
Qed.

Lemma matcher_token e s caps :
  option_map captures (matcher true re_token (MState e s caps) Some) =
  option_map (fun id => (1, id) :: caps) (token_at s).
Proof.
  unfold re_token, token_at.
  change (matcher true (Seq (Group 1 (Count 10 alnum)) boundary) (MState e s caps) Some)
    with (matcher true (Count 10 alnum) (MState e s caps)
            (fun y => matcher true boundary (set_capture 1 (MState e s caps) y) Some)).
  unfold alnum. rewrite matcher_count. simpl rest.
  rewrite (take_class_ext _ isAlnum) by apply class_alnum.
  destruct (take_class isAlnum 10 s) as [t|]; [|reflexivity].
  unfold set_capture; simpl endIndex; simpl rest; simpl captures.
  replace (e + 10 - e) with 10 by lia.
  unfold boundary. simpl matcher. unfold advance; simpl rest.
  destruct t as [|c t]; [reflexivity|]. simpl is_boundary.
  fold boundary_ranges. rewrite class_boundary.
  destruct (CodeUnit.eqb c "/" || CodeUnit.eqb c "?"); reflexivity.
Qed.

Lemma matcher_after_keyword w e t :
  option_map captures
    (matcher true (lit w Empty) (MState e t []) (fun y => matcher true (lit "/" re_token) y Some)) =
  option_map (fun id => [(1, id)]) (after_keyword w t).
Proof.
  unfold after_keyword. rewrite matcher_lit. simpl rest.
  destruct (strip true w t) as [u|]; [|reflexivity].
  cbn [matcher]. rewrite matcher_lit. simpl rest.
  destruct (strip true "/" u) as [v|]; [|reflexivity].
  apply matcher_token.
Qed.

Lemma first_of_two (a b : option mstate) (fa fb : option string) :
  option_map captures a = option_map (fun id => [(1, id)]) fa ->
  option_map captures b = option_map (fun id => [(1, id)]) fb ->
  option_map captures (match a with Some z => Some z | None => b end) =
  option_map (fun id => [(1, id)]) (match fa with Some id => Some id | None => fb end).
Proof.
  destruct a, fa; simpl; intros Ha Hb; try discriminate; assumption.
Qed.

Lemma matcher_path e s :
  option_map captures (matcher true re_path (MState e s []) Some) =
  option_map (fun id => [(1, id)]) (path_at s).
Proof.
  unfold path_at.
  change re_path with
    (lit "/" (Seq (Alt (lit "dp" Empty) (Alt (lit "gp/product" Empty) (lit "product" Empty)))
                  (lit "/" re_token))).
  rewrite matcher_lit. simpl rest.
  destruct (strip true "/" s) as [t|]; [|reflexivity].
  cbn [matcher].
  apply first_of_two; [apply matcher_after_keyword|].
  apply first_of_two; apply matcher_after_keyword.
Qed.

Lemma substring_0_0 s : substring 0 0 s = EmptyString.
Proof. destruct s; reflexivity. Qed.

Lemma take_class_split p n s t :
  take_class p n s = Some t ->
  s = substring 0 n s +:+ t /\ String.length (substring 0 n s) = n
  /\ all_chars p (substring 0 n s) = true.
Proof.
  revert s. induction n as [|n IH]; intros s.
  - simpl. intros [= ->]. rewrite substring_0_0. auto.
  - destruct s as [|c s]; simpl; [discriminate|].
    destruct (p c) eqn:Hc; [|discriminate]. intros H.
    destruct (IH _ H) as (E & L & A). rewrite L, A. repeat split. simpl. now rewrite <- E.
Qed.

Lemma take_class_app p w t :
  all_chars p w = true -> take_class p (String.length w) (w +:+ t) = Some t.
Proof.
  induction w as [|c w IH]; simpl; [reflexivity|].
  intros [Hc H]%andb_true_iff. rewrite Hc. auto.
Qed.

Lemma substring_app w t : substring 0 (String.length w) (w +:+ t) = w.
Proof.
  induction w as [|c w IH]; simpl; [apply substring_0_0|]. now rewrite IH.
Qed.

Lemma token_at_length s id : token_at s = Some id -> String.length id = 10.
Proof.
  unfold token_at. destruct (take_class isAlnum 10 s) as [t|] eqn:E; [|discriminate].
  destruct (is_boundary t); [|discriminate]. intros [= <-].
  now apply take_class_split in E.
Qed.

Lemma after_keyword_length w s id : after_keyword w s = Some id -> String.length id = 10.
Proof.
  unfold after_keyword. destruct (strip true w s) as [u|]; [|discriminate].
  destruct (strip true "/" u) as [v|]; [|discriminate]. apply token_at_length.
Qed.

Lemma path_at_length s id : path_at s = Some id -> String.length id = 10.
Proof.
  unfold path_at. destruct (strip true "/" s) as [t|]; [|discriminate].
  destruct (after_keyword "dp" t) eqn:E1; [intros [= <-]; eauto using after_keyword_length|].
  destruct (after_keyword "gp/product" t) eqn:E2; [intros [= <-]; eauto using after_keyword_length|].
  apply after_keyword_length.
Qed.

Lemma length_10_truthy id : String.length id = 10 -> truthy id = true.
Proof. destruct id; [discriminate|reflexivity]. Qed.

(** [exec] with either pattern is a search for the first suffix at which the
    pattern finds something, and [m && m[1]] is what it finds there. *)
Lemma exec_find r f :
  (forall e s, option_map captures (matcher true r (MState e s []) Some) =
               option_map (fun id => [(1, id)]) (f s)) ->
  (forall s id, f s = Some id -> String.length id = 10) ->
  forall e s, truthy_group (exec_from true r e s) 1 = find_first f s.
Proof.
  intros Hm Hlen e s. revert e. induction s as [|c t IH]; intros e.
  - simpl. specialize (Hm e EmptyString).
    destruct (matcher true r (MState e EmptyString []) Some) as [y|], (f EmptyString) as [id|] eqn:Ef;
      simpl in Hm; try discriminate; [|reflexivity].
    injection Hm as Hm. unfold truthy_group, group; simpl. rewrite Hm; simpl.
    now rewrite (length_10_truthy id (Hlen _ _ Ef)).
  - simpl. specialize (Hm e (String c t)).
    destruct (matcher true r (MState e (String c t) []) Some) as [y|], (f (String c t)) as [id|] eqn:Ef;
      simpl in Hm; try discriminate; [|apply IH].
    injection Hm as Hm. unfold truthy_group, group; simpl. rewrite Hm; simpl.
    now rewrite (length_10_truthy id (Hlen _ _ Ef)).
Qed.

Lemma extractAsin_eq s :
  extractAsin s =
  if negb (truthy s) then EmptyString
  else match find_path (trim s) with
       | Some id => toUpperCase id
       | None =>
           match find_token (trim s) with
           | Some id => toUpperCase id
           | None => EmptyString
           end
       end.
Proof.
  unfold extractAsin, exec, find_path, find_token.
  rewrite (exec_find re_path path_at matcher_path path_at_length).
  rewrite (exec_find re_token token_at (fun e s => matcher_token e s []) token_at_length).
  reflexivity.
Qed.

(** The two patterns on sample inputs: the match array of a path in a longer
    string, the fallback on the tail of a longer run, and an identifier that is
    one code unit too long for the path pattern. *)
Example exec_path_sample :
  exec true re_path "x/gp/product/B08N5WRWNW?y"
  = Some (MatchResult 1 "/gp/product/B08N5WRWNW?" [(1, "B08N5WRWNW")]).
Proof. vm_compute. reflexivity. Qed.

Example exec_token_sample :
  exec true re_token "ab/B08N5WRWNW"
  = Some (MatchResult 3 "B08N5WRWNW" [(1, "B08N5WRWNW")]).
Proof. vm_compute. reflexivity. Qed.

Example extractAsin_search_term :
  extractAsin "https://www.amazon.in/s?k=wirelessheadphones" = "HEADPHONES".
Proof. vm_compute. reflexivity. Qed.

Example extractAsin_long_path_id : extractAsin "/dp/XB08N5WRWNW" = "B08N5WRWNW".
Proof. vm_compute. reflexivity. Qed.

Example extractAsin_fragment : extractAsin "/dp/B08N5WRWNW#frag" = EmptyString.
Proof. vm_compute. reflexivity. Qed.

(** ** Shapes of the matches, stated on the input *)

Lemma strip_app w w' t :
  toUpperCase w' = toUpperCase w -> strip true w (w' +:+ t) = Some t.
Proof.
  revert w'. induction w as [|c w IH]; intros [|c' w']; simpl; try discriminate; [reflexivity|].
  intros [= Hc Hw]. rewrite Hc.
  replace (CodeUnit.eqb (CodeUnit.upper c) (CodeUnit.upper c)) with true
    by (symmetry; now apply eqb_eq).
  auto.
Qed.

Lemma strip_split w s t :
  strip true w s = Some t -> exists w', s = w' +:+ t /\ toUpperCase w' = toUpperCase w.
Proof.
  revert s. induction w as [|c w IH]; intros s; simpl.
  - intros [= ->]. now exists EmptyString.
  - destruct s as [|ch s]; [discriminate|].
    destruct (CodeUnit.eqb _ _) eqn:E; [|discriminate]. intros H.
    destruct (IH _ H) as (w' & -> & Hw). exists (String ch w'). split; [reflexivity|].
    unfold toUpperCase in *. simpl in *. apply eqb_eq in E. now rewrite E, Hw.
Qed.

Lemma upper_slash c : CodeUnit.upper c = "/"%char -> c = "/"%char.
Proof. each_code_unit c. Qed.

Lemma strip_slash s t : strip true "/" s = Some t <-> s = String "/" t.
Proof.
  split.
  - intros (w' & -> & Hw)%strip_split. destruct w' as [|c [|? ?]]; try discriminate.
    injection Hw as Hw. now rewrite (upper_slash _ Hw).
  - intros ->. reflexivity.
Qed.

Lemma token_at_spec s id :
  token_at s = Some id <-> exists suf, s = id +:+ suf /\ is_id id /\ at_boundary suf.
Proof.
  unfold token_at, is_id, at_boundary. split.
  - destruct (take_class isAlnum 10 s) as [t|] eqn:E; [|discriminate].
    destruct (is_boundary t) eqn:B; [|discriminate]. intros [= <-].
    destruct (take_class_split _ _ _ _ E) as (Hs & L & A). exists t. auto.
  - intros (suf & -> & [L A] & B). rewrite <- L at 1. rewrite take_class_app by assumption.
    rewrite B. rewrite <- L at 1. now rewrite substring_app.
Qed.

Lemma after_keyword_spec w s id :
  after_keyword w s = Some id <->
  exists kw suf, s = kw +:+ "/" +:+ id +:+ suf /\ toUpperCase kw = toUpperCase w
                 /\ is_id id /\ at_boundary suf.
Proof.
  unfold after_keyword. split.
  - destruct (strip true w s) as [u|] eqn:E1; [|discriminate].
    destruct (strip true "/" u) as [v|] eqn:E2; [|discriminate].
    intros (suf & -> & Hid & Hb)%token_at_spec.
    apply strip_slash in E2 as ->. apply strip_split in E1 as (kw & -> & Hkw).
    exists kw, suf. auto.
  - intros (kw & suf & -> & Hkw & Hid & Hb).
    rewrite strip_app by assumption. simpl.
    apply token_at_spec. eauto.
Qed.

Lemma strip_other w w' t :
  match toUpperCase w', toUpperCase w with
  | String a _, String b _ => a <> b
  | _, _ => False
  end ->
  strip true w (w' +:+ t) = None.
Proof.
  destruct w' as [|c' w'], w as [|c w]; simpl; try tauto.
  intros H. destruct (CodeUnit.eqb _ _) eqn:E; [|reflexivity].
  apply eqb_eq in E. contradiction.
Qed.

Lemma after_keyword_other w w' t :
  match toUpperCase w', toUpperCase w with
  | String a _, String b _ => a <> b
  | _, _ => False
  end ->
  after_keyword w (w' +:+ t) = None.
Proof. intros H. unfold after_keyword. now rewrite strip_other. Qed.

Lemma path_at_spec s id :
  path_at s = Some id <->
  exists kw suf, s = "/" +:+ kw +:+ "/" +:+ id +:+ suf /\ keyword kw /\ is_id id /\ at_boundary suf.
Proof.
  unfold path_at, keyword. split.
  - destruct (strip true "/" s) as [t|] eqn:E; [|discriminate].
    apply strip_slash in E as ->.
    destruct (after_keyword "dp" t) as [i1|] eqn:E1.
    { intros [= ->]. apply after_keyword_spec in E1 as (kw & suf & -> & ? & ? & ?).
      exists kw, suf. split_and!; try reflexivity; try assumption. now left. }
    destruct (after_keyword "gp/product" t) as [i2|] eqn:E2.
    { intros [= ->]. apply after_keyword_spec in E2 as (kw & suf & -> & ? & ? & ?).
      exists kw, suf. split_and!; try reflexivity; try assumption. right; now left. }
    intros (kw & suf & -> & ? & ? & ?)%after_keyword_spec. exists kw, suf. split_and!; try reflexivity; try assumption. right; now right.
  - intros (kw & suf & -> & Hkw & Hid & Hb).
    change ("/" +:+ kw +:+ "/" +:+ id +:+ suf) with (String "/" (kw +:+ "/" +:+ id +:+ suf)).
    rewrite (proj2 (strip_slash _ (kw +:+ "/" +:+ id +:+ suf)) eq_refl).
    assert (Hk : forall w, toUpperCase kw = toUpperCase w ->
                           after_keyword w (kw +:+ "/" +:+ id +:+ suf) = Some id).
    { intros w Hw. apply after_keyword_spec. exists kw, suf. split_and!; auto. }
    destruct Hkw as [H|[H|H]].
    + now rewrite (Hk "dp").
    + rewrite after_keyword_other by (rewrite H; vm_compute; congruence).
      now rewrite (Hk "gp/product").
    + rewrite after_keyword_other by (rewrite H; vm_compute; congruence).
      rewrite after_keyword_other by (rewrite H; vm_compute; congruence).
      now apply (Hk "product").
Qed.

(** ** The leftmost search *)

Lemma find_first_none f s :
  find_first f s = None <-> (forall pre suf, s = pre +:+ suf -> f suf = None).
Proof.
  induction s as [|c t IH]; simpl.
  - destruct (f EmptyString) eqn:E; split; try discriminate; try reflexivity.
    + intros H. rewrite <- E. now apply (H EmptyString).
    + intros _ [|? ?] suf; [|discriminate]. simpl. now intros <-.
  - destruct (f (String c t)) eqn:E; split; try discriminate.
    + intros H. rewrite <- E. now apply (H EmptyString).
    + intros H [|c' pre] suf; simpl.
      * now intros <-.
      * intros [= <- ->]. apply (proj1 IH H pre suf eq_refl).
    + intros H. apply IH. intros pre suf ->. now apply (H (String c pre)).
Qed.

Lemma find_first_some f s v :
  find_first f s = Some v ->
  exists pre suf, s = pre +:+ suf /\ f suf = Some v
    /\ forall pre' suf', s = pre' +:+ suf' -> String.length pre' < String.length pre -> f suf' = None.
Proof.
  induction s as [|c t IH]; simpl.
  - destruct (f EmptyString) eqn:E; [|discriminate]. intros [= ->].
    exists EmptyString, EmptyString. split_and!; auto. simpl. lia.
  - destruct (f (String c t)) eqn:E.
    + intros [= ->]. exists EmptyString, (String c t). split_and!; auto. simpl. lia.
    + intros (pre & suf & -> & Hf & Hmin)%IH. exists (String c pre), suf. split_and!; auto.
      intros [|c' pre'] suf'; simpl.
      * now intros <-.
      * intros [= <- Ht] Hl. apply (Hmin pre' suf' Ht). lia.
Qed.

Lemma find_first_found f s pre suf v :
  s = pre +:+ suf -> f suf = Some v -> exists v', find_first f s = Some v'.
Proof.
  intros Hs Hf. destruct (find_first f s) as [v'|] eqn:E; [eauto|].
  rewrite (proj1 (find_first_none f s) E pre suf Hs) in Hf. discriminate.
Qed.

(** ** trim *)

Lemma trimStart_app a c t :
  CodeUnit.isWhiteSpace c = false -> trimStart (a +:+ String c t) = trimStart a +:+ String c t.
Proof.
  intros Hc. induction a as [|x a IH]; simpl; [now rewrite Hc|].
  destruct (CodeUnit.isWhiteSpace x); [exact IH|reflexivity].
Qed.

Lemma trimEnd_cons c t :
  CodeUnit.isWhiteSpace c = false -> trimEnd (String c t) = String c (trimEnd t).
Proof. intros Hc. simpl. rewrite Hc. destruct (trimEnd t); reflexivity. Qed.

Lemma trimEnd_app a c t :
  CodeUnit.isWhiteSpace c = false -> trimEnd (a +:+ String c t) = a +:+ String c (trimEnd t).
Proof.
  intros Hc. induction a as [|x a IH]; [now apply trimEnd_cons|].
  simpl. rewrite IH. destruct a; reflexivity.
Qed.

Lemma trim_fixed s : all_chars (fun c => negb (CodeUnit.isWhiteSpace c)) s = true -> trim s = s.
Proof.
  unfold trim. destruct s as [|c s]; [reflexivity|]. simpl.
  intros [Hc Hs]%andb_true_iff. apply negb_true_iff in Hc. rewrite Hc.
  revert c Hc. induction s as [|d s IH]; intros c Hc.
  - simpl. now rewrite Hc.
  - simpl in Hs. apply andb_true_iff in Hs as [Hd Hs]. apply negb_true_iff in Hd.
    specialize (IH Hs d Hd). change (trimEnd (String c (String d s))) with
      (match trimEnd (String d s) with
       | EmptyString => if CodeUnit.isWhiteSpace c then EmptyString else String c EmptyString
       | t' => String c t' end).
    now rewrite IH.
Qed.

(** ** Facts on [all_chars] and the case mappings *)

Lemma all_chars_app p a b : all_chars p (a +:+ b) = all_chars p a && all_chars p b.
Proof. induction a as [|c a IH]; simpl; [reflexivity|]. now rewrite IH, andb_assoc. Qed.

Lemma all_chars_impl (p q : ascii -> bool) s :
  (forall c, p c = true -> q c = true) -> all_chars p s = true -> all_chars q s = true.
Proof.
  intros Hpq. induction s as [|c s IH]; simpl; [reflexivity|].
  intros [Hc Hs]%andb_true_iff. rewrite (Hpq _ Hc). auto.
Qed.

Lemma toUpperCase_length s : String.length (toUpperCase s) = String.length s.
Proof. unfold toUpperCase. induction s as [|c s IH]; simpl; [reflexivity|]. now rewrite IH. Qed.

Lemma toUpperCase_alnum s :
  all_chars isAlnum s = true -> all_chars isUpperAlnum (toUpperCase s) = true.
Proof.
  unfold toUpperCase. induction s as [|c s IH]; simpl; [reflexivity|].
  intros [Hc Hs]%andb_true_iff. now rewrite (upper_of_alnum _ Hc), IH.
Qed.

Lemma toUpperCase_fixed s : all_chars isUpperAlnum s = true -> toUpperCase s = s.
Proof.
  unfold toUpperCase. induction s as [|c s IH]; simpl; [reflexivity|].
  intros [Hc Hs]%andb_true_iff. now rewrite (upper_fixed _ Hc), IH.
Qed.

Lemma truthy_app_slash pre t : truthy (pre +:+ String "/" t) = true.
Proof. destruct pre; reflexivity. Qed.

Lemma find_first_here f s v : f s = Some v -> find_first f s = Some v.
Proof. intros H. destruct s; simpl; now rewrite H. Qed.

(** ** extractAsin: what it returns *)

(** The result is empty or the upper case of ten letters or digits that one
    of the two patterns captured. *)
Lemma extractAsin_cases s :
  extractAsin s = EmptyString \/
  exists id, is_id id /\ extractAsin s = toUpperCase id.
Proof.
  rewrite extractAsin_eq. destruct (negb (truthy s)); [now left|].
  destruct (find_path (trim s)) as [id|] eqn:E1.
  { right. apply find_first_some in E1 as (pre & suf & _ & Hp & _).
    apply path_at_spec in Hp as (kw & suf' & _ & _ & Hid & _). eauto. }
  destruct (find_token (trim s)) as [id|] eqn:E2; [|now left].
  right. apply find_first_some in E2 as (pre & suf & _ & Hp & _).
  apply token_at_spec in Hp as (suf' & _ & Hid & _). eauto.
Qed.

Lemma extractAsin_shape s :
  extractAsin s = EmptyString \/
  (String.length (extractAsin s) = 10 /\ all_chars isUpperAlnum (extractAsin s) = true).
Proof.
  destruct (extractAsin_cases s) as [H|(id & [L A] & ->)]; [now left|right].
  now rewrite toUpperCase_length, toUpperCase_alnum.
Qed.

(** A bare identifier in upper case is returned as it is. *)
Lemma extractAsin_canonical r :
  String.length r = 10 -> all_chars isUpperAlnum r = true -> extractAsin r = r.
Proof.
  intros L U.
  assert (A : all_chars isAlnum r = true)
    by (revert U; apply all_chars_impl, upper_alnum_is_alnum).
  rewrite extractAsin_eq, (length_10_truthy r L). simpl negb. cbv iota.
  rewrite trim_fixed
    by (revert A; apply all_chars_impl; intros c Hc; now rewrite alnum_not_space).
  assert (P : find_path r = None).
  { apply find_first_none. intros pre suf ->.
    destruct (path_at suf) as [id|] eqn:E; [|reflexivity].
    apply path_at_spec in E as (kw & suf' & -> & _).
    rewrite all_chars_app in A. apply andb_true_iff in A as [_ A]. discriminate A. }
  rewrite P.
  assert (T : token_at r = Some r).
  { apply token_at_spec. exists EmptyString. split_and!; auto; [|now split|reflexivity].
    clear. induction r as [|c r IH]; simpl; [reflexivity|]. now rewrite <- IH. }
  unfold find_token. rewrite (find_first_here _ _ _ T). now apply toUpperCase_fixed.
Qed.

(** C7. Identifier extraction is idempotent: extracting from an extraction
    result returns that result (also when it is empty).  It normalises the
    case: a result is empty or ten code units of A-Z and 0-9.  The bare
    identifier, the lower-case path and the full URL of the specification all
    yield B08N5WRWNW. *)
Theorem extractAsin_idempotent_case_normalizing :
  (forall s, extractAsin (extractAsin s) = extractAsin s)
  /\ (forall s, extractAsin s = EmptyString
                \/ (String.length (extractAsin s) = 10
                    /\ all_chars isUpperAlnum (extractAsin s) = true))
  /\ extractAsin "B08N5WRWNW" = "B08N5WRWNW"
  /\ extractAsin "/dp/b08n5wrwnw/ref=x" = "B08N5WRWNW"
  /\ extractAsin "https://amazon.in/dp/B08N5WRWNW?x=1" = "B08N5WRWNW".
Proof.
  split_and!; [| |vm_compute; reflexivity ..].
  - intros s. destruct (extractAsin_shape s) as [->|[L U]]; [reflexivity|].
    now apply extractAsin_canonical.
  - apply extractAsin_shape.
Qed.

(** ** The path tier *)

Lemma at_boundary_trimEnd suf : at_boundary suf -> at_boundary (trimEnd suf).
Proof.
  unfold at_boundary. destruct suf as [|c t]; [reflexivity|]. intros H.
  assert (W : CodeUnit.isWhiteSpace c = false).
  { simpl in H. revert H. clear. each_code_unit c. }
  now rewrite trimEnd_cons.
Qed.

Lemma is_id_last id : is_id id -> exists a c, id = a +:+ String c EmptyString /\ isAlnum c = true.
Proof.
  intros [L A]. destruct id as [|c0 id]; [discriminate|]. clear L.
  revert c0 A. induction id as [|c1 id IH]; intros c0 A; simpl in A.
  - exists EmptyString, c0. split; [reflexivity|]. now destruct (isAlnum c0).
  - apply andb_true_iff in A as [_ A]. destruct (IH c1 A) as (a & c & E & Hc).
    exists (String c0 a), c. simpl. now rewrite <- E.
Qed.

Lemma append_assoc (a b c : string) : (a +:+ b) +:+ c = a +:+ b +:+ c.
Proof. induction a as [|x a IH]; simpl; [reflexivity|]. now rewrite IH. Qed.

(** Trimming keeps a path-shaped match of the input. *)
Lemma trim_path_match s pre kw id suf :
  path_match s pre kw id suf -> path_match (trim s) (trimStart pre) kw id (trimEnd suf).
Proof.
  intros (-> & Hkw & Hid & Hb). split_and!; auto using at_boundary_trimEnd.
  destruct (is_id_last id Hid) as (a & c & -> & Hc).
  unfold trim. change ("/" +:+ kw +:+ "/" +:+ (a +:+ String c "") +:+ suf)
    with (String "/" (kw +:+ "/" +:+ (a +:+ String c "") +:+ suf)).
  rewrite trimStart_app by reflexivity.
  assert (E : forall x, trimStart pre +:+ String "/" (kw +:+ "/" +:+ (a +:+ String c "") +:+ x)
                        = (trimStart pre +:+ "/" +:+ kw +:+ "/" +:+ a) +:+ String c x).
  { intros x. rewrite !append_assoc. reflexivity. }
  rewrite E, (trimEnd_app _ c suf) by now apply alnum_not_space.
  now rewrite <- E.
Qed.

(** C8. An input that contains a path-shaped match -- [/dp/], [/gp/product/]
    or [/product/] in any case, then ten letters or digits, then [/], [?] or
    the end -- yields the upper-cased identifier of a path-shaped match: the
    leftmost one of the trimmed input, whatever ten-character tokens stand
    before or after it.  The fallback pattern decides only an input without
    path-shaped match. *)
Theorem path_tier_before_token_tier s pre kw id suf :
  path_match s pre kw id suf ->
  exists pre' kw' id' suf',
    path_match (trim s) pre' kw' id' suf'
    /\ (forall p k i u, path_match (trim s) p k i u -> String.length pre' <= String.length p)
    /\ extractAsin s = toUpperCase id'.
Proof.
  intros H. pose proof (trim_path_match _ _ _ _ _ H) as (Ht & Hkw & Hid & Hb).
  assert (Hs : truthy s = true) by (destruct H as [-> _]; apply truthy_app_slash).
  assert (Hp : path_at ("/" +:+ kw +:+ "/" +:+ id +:+ trimEnd suf) = Some id)
    by (apply path_at_spec; exists kw, (trimEnd suf); auto).
  destruct (find_first_found _ _ _ _ _ Ht Hp) as [id' Hf].
  rewrite extractAsin_eq, Hs. unfold find_path. rewrite Hf. simpl negb. cbv iota.
  apply find_first_some in Hf as (pre' & rest' & E & Hp' & Hmin).
  apply path_at_spec in Hp' as (kw' & suf' & -> & Hkw' & Hid' & Hb').
  exists pre', kw', id', suf'. split_and!; [now split_and!| |reflexivity].
  intros p k i u (Ep & Hk & Hi & Hu).
  destruct (Nat.le_gt_cases (String.length pre') (String.length p)) as [|Hlt]; [assumption|].
  assert (Hq : path_at ("/" +:+ k +:+ "/" +:+ i +:+ u) = Some i)
    by (apply path_at_spec; exists k, u; auto).
  rewrite (Hmin _ _ Ep Hlt) in Hq. discriminate.
Qed.

Lemma path_tier_before_token_tier_witness :
  let s := "B000000001?x=/Gp/Product/b08n5wrwnw/ref=B000000002" in
  token_match s "" "B000000001" "?x=/Gp/Product/b08n5wrwnw/ref=B000000002"
  /\ token_match s "B000000001?x=/Gp/Product/b08n5wrwnw/ref=" "B000000002" ""
  /\ extractAsin s = "B08N5WRWNW"
  /\ exists pre' kw' id' suf',
       path_match (trim s) pre' kw' id' suf'
       /\ (forall p k i u, path_match (trim s) p k i u -> String.length pre' <= String.length p)
       /\ extractAsin s = toUpperCase id'.
Proof.
  split_and!; [vm_compute; split_and!; auto .. | vm_compute; reflexivity |].
  apply (path_tier_before_token_tier _ "B000000001?x=" "Gp/Product" "b08n5wrwnw" "/ref=B000000002").
  vm_compute. split_and!; auto.
Defined.

(** ** The fallback tier *)

Lemma append_nil_r (s : string) : s +:+ EmptyString = s.
Proof. induction s as [|c s IH]; simpl; [reflexivity|]. now rewrite IH. Qed.

Lemma append_length (a b : string) :
  String.length (a +:+ b) = String.length a + String.length b.
Proof. induction a as [|c a IH]; simpl; [reflexivity|]. now rewrite IH. Qed.

(** Reading [n] letters or digits across a run [cur]. *)
Lemma take_class_run n cur rest :
  all_chars isAlnum cur = true -> String.length cur < n ->
  take_class isAlnum n (cur +:+ rest) = take_class isAlnum (n - String.length cur) rest.
Proof.
  revert n. induction cur as [|c cur IH]; intros n A L; simpl in *.
  - now rewrite Nat.sub_0_r.
  - apply andb_true_iff in A as [Hc A]. destruct n as [|n]; [lia|]. simpl.
    rewrite Hc. apply IH; [assumption|lia].
Qed.

Lemma take_class_inside n cur rest :
  all_chars isAlnum cur = true -> n <= String.length cur ->
  exists w w', cur = w +:+ w' /\ String.length w = n
               /\ take_class isAlnum n (cur +:+ rest) = Some (w' +:+ rest).
Proof.
  revert n. induction cur as [|c cur IH]; intros n A L; simpl in *.
  - assert (n = 0) as -> by lia. now exists EmptyString, EmptyString.
  - apply andb_true_iff in A as [Hc A]. destruct n as [|n].
    + now exists EmptyString, (String c cur).
    + destruct (IH n A ltac:(lia)) as (w & w' & -> & Lw & E).
      exists (String c w), w'. simpl. rewrite Hc, Lw. auto.
Qed.

(** The fallback pattern at the start of a run [cur] of letters and digits that
    a code unit [c] other than a letter or digit ends: it matches when the
    run has ten code units and [c] is a boundary. *)
Lemma token_at_run cur c t :
  all_chars isAlnum cur = true -> isAlnum c = false ->
  token_at (cur +:+ String c t) =
  if (String.length cur =? 10)%nat && (CodeUnit.eqb c "/" || CodeUnit.eqb c "?")
  then Some cur else None.
Proof.
  intros A Hc. unfold token_at.
  destruct (Nat.lt_ge_cases (String.length cur) 10) as [L|L].
  - rewrite take_class_run by assumption.
    destruct (10 - String.length cur) as [|k] eqn:K; [lia|]. simpl. rewrite Hc.
    destruct (Nat.eqb_spec (String.length cur) 10); [lia|reflexivity].
  - destruct (take_class_inside 10 cur (String c t) A L) as (w & w' & E & Lw & ->).
    destruct w' as [|d w'].
    + rewrite append_nil_r in E. subst w. simpl. rewrite Lw. simpl.
      destruct (CodeUnit.eqb c "/" || CodeUnit.eqb c "?"); [|reflexivity].
      rewrite <- Lw at 1. now rewrite substring_app.
    + assert (Hd : isAlnum d = true).
      { rewrite E, all_chars_app in A. simpl in A.
        apply andb_true_iff in A as [_ A]. now apply andb_true_iff in A as [A _]. }
      simpl. rewrite (alnum_not_boundary _ Hd).
      destruct (Nat.eqb_spec (String.length cur) 10) as [E10|]; [|reflexivity].
      rewrite E, append_length in E10. simpl in E10. lia.
Qed.

(** The same at the end of the input. *)
Lemma token_at_last cur :
  all_chars isAlnum cur = true ->
  token_at cur = if (String.length cur =? 10)%nat then Some cur else None.
Proof.
  intros A. unfold token_at.
  destruct (Nat.lt_ge_cases (String.length cur) 10) as [L|L].
  - rewrite <- (append_nil_r cur) at 1. rewrite take_class_run by assumption.
    destruct (10 - String.length cur) as [|k] eqn:K; [lia|]. simpl.
    destruct (Nat.eqb_spec (String.length cur) 10); [lia|reflexivity].
  - destruct (take_class_inside 10 cur EmptyString A L) as (w & w' & E & Lw & T).
    rewrite append_nil_r in T. rewrite T.
    destruct w' as [|d w'].
    + rewrite append_nil_r in E. subst w. simpl. rewrite Lw. simpl.
      rewrite <- Lw at 1. rewrite <- (append_nil_r cur) at 2. now rewrite substring_app.
    + assert (Hd : isAlnum d = true).
      { rewrite E, all_chars_app in A. simpl in A.
        apply andb_true_iff in A as [_ A]. now apply andb_true_iff in A as [A _]. }
      rewrite append_nil_r. simpl. rewrite (alnum_not_boundary _ Hd).
      destruct (Nat.eqb_spec (String.length cur) 10) as [E10|]; [|reflexivity].
      rewrite E, append_length in E10. simpl in E10. lia.
Qed.

Lemma find_first_cons f c t :
  find_first f (String c t) =
  match f (String c t) with Some v => Some v | None => find_first f t end.
Proof. reflexivity. Qed.

Lemma find_token_last cur :
  all_chars isAlnum cur = true ->
  (find_token cur = None <-> String.length cur < 10).
Proof.
  unfold find_token. induction cur as [|a cur IH]; intros A.
  - simpl. split; [lia|reflexivity].
  - rewrite find_first_cons, (token_at_last _ A).
    simpl in A. apply andb_true_iff in A as [_ A]. specialize (IH A).
    destruct (Nat.eqb_spec (String.length (String a cur)) 10) as [E|E].
    + split; [discriminate|]. simpl in *. lia.
    + rewrite IH. simpl in *. lia.
Qed.

Lemma find_token_run cur c t :
  all_chars isAlnum cur = true -> isAlnum c = false ->
  (find_token (cur +:+ String c t) = None <->
   (CodeUnit.eqb c "/" || CodeUnit.eqb c "?" = true -> String.length cur < 10)
   /\ find_token t = None).
Proof.
  unfold find_token. intros A Hc. induction cur as [|a cur IH].
  - simpl append. rewrite find_first_cons.
    pose proof (token_at_run EmptyString c t eq_refl Hc) as T. simpl in T. rewrite T.
    simpl. split; [intros H; split; [lia|exact H]|tauto].
  - simpl append. rewrite find_first_cons.
    change (String a (cur +:+ String c t)) with (String a cur +:+ String c t).
    rewrite (token_at_run _ c t A Hc).
    simpl in A. apply andb_true_iff in A as [_ A]. specialize (IH A).
    destruct (Nat.eqb_spec (String.length (String a cur)) 10) as [E|E];
      destruct (CodeUnit.eqb c "/" || CodeUnit.eqb c "?") eqn:B; simpl andb; cbv iota.
    + split; [discriminate|]. intros [H _]. specialize (H eq_refl). lia.
    + rewrite IH. split; intros [_ H]; (split; [discriminate|exact H]).
    + rewrite IH. simpl in *. split; intros [H1 H2]; (split; [intros _; specialize (H1 eq_refl); lia|exact H2]).
    + rewrite IH. split; intros [_ H]; (split; [discriminate|exact H]).
Qed.

(** The fallback pattern finds nothing exactly when every run of letters and
    digits that a boundary follows has fewer than ten code units. *)
Lemma find_token_runs cur s :
  all_chars isAlnum cur = true ->
  (find_token (cur +:+ s) = None <-> Forall too_short (runs_from cur s)).
Proof.
  revert cur. induction s as [|c t IH]; intros cur A.
  - rewrite append_nil_r, (find_token_last _ A). simpl.
    destruct cur as [|a cur]; simpl.
    + split; [constructor|lia].
    + rewrite Forall_singleton. unfold too_short; simpl. split; [auto|intros H; now apply H].
  - simpl runs_from. destruct (isAlnum c) eqn:Hc.
    + rewrite <- IH by (rewrite all_chars_app, A; simpl; now rewrite Hc).
      rewrite append_assoc. reflexivity.
    + rewrite (find_token_run _ _ _ A Hc), Forall_app, <- (IH EmptyString eq_refl).
      simpl append. apply and_iff_compat_r.
      destruct cur as [|a cur]; simpl truthy; cbv iota.
      * split; [constructor|]. simpl. lia.
      * rewrite Forall_singleton. reflexivity.
Qed.

Lemma exec_from_none r f :
  (forall e s, option_map captures (matcher true r (MState e s []) Some) =
               option_map (fun id => [(1, id)]) (f s)) ->
  forall e s, exec_from true r e s = None <-> find_first f s = None.
Proof.
  intros Hm e s. revert e. induction s as [|c t IH]; intros e; simpl.
  - specialize (Hm e EmptyString).
    destruct (matcher true r (MState e EmptyString []) Some), (f EmptyString);
      simpl in Hm; try discriminate; split; try discriminate; reflexivity.
  - specialize (Hm e (String c t)).
    destruct (matcher true r (MState e (String c t) []) Some), (f (String c t));
      simpl in Hm; try discriminate; [split; discriminate|apply IH].
Qed.

(** No path-shaped match in [s]: the path pattern finds nothing. *)
Lemma exec_path_none s :
  exec true re_path s = None <-> (forall pre kw id suf, ~ path_match s pre kw id suf).
Proof.
  unfold exec. rewrite (exec_from_none re_path path_at matcher_path), find_first_none.
  split.
  - intros H pre kw id suf (-> & Hk & Hi & Hb).
    assert (Hp : path_at ("/" +:+ kw +:+ "/" +:+ id +:+ suf) = Some id)
      by (apply path_at_spec; exists kw, suf; auto).
    rewrite (H pre _ eq_refl) in Hp. discriminate.
  - intros H pre suf ->. destruct (path_at suf) as [id|] eqn:E; [|reflexivity].
    apply path_at_spec in E as (kw & suf' & -> & Hk & Hi & Hb).
    destruct (H pre kw id suf'). now split_and!.
Qed.

(** C9, as stated, fails: an input that is one run of eleven letters and
    digits is not blank, holds no path-shaped match and no run of length
    ten, and the extraction returns its last ten code units. *)
Lemma fallback_not_standalone_counterexample :
  let s := "XB08N5WRWNW" in
  truthy (trim s) = true
  /\ exec true re_path (trim s) = None
  /\ alnum_runs s = [(s, None)] /\ String.length s = 11
  /\ no_run_of_ten s
  /\ extractAsin s = "B08N5WRWNW"
  /\ extractAsin s <> EmptyString.
Proof.
  split_and!; try (vm_compute; reflexivity); [|discriminate].
  repeat constructor. vm_compute. discriminate.
Qed.

(** A run of letters and digits holds no path-shaped match. *)
Lemma find_path_alnum r : all_chars isAlnum r = true -> find_path r = None.
Proof.
  intros A. apply find_first_none. intros pre suf ->.
  destruct (path_at suf) as [id|] eqn:E; [|reflexivity].
  apply path_at_spec in E as (kw & suf' & -> & _).
  rewrite all_chars_app in A. apply andb_true_iff in A as [_ A]. discriminate A.
Qed.

(** In an input that is one run of letters and digits the fallback pattern
    finds the last ten code units. *)
Lemma find_token_run_end pre id :
  all_chars isAlnum pre = true -> is_id id -> find_token (pre +:+ id) = Some id.
Proof.
  intros Hp [L A]. unfold find_token. induction pre as [|c pre IH].
  - change (EmptyString +:+ id) with id.
    apply find_first_here. rewrite (token_at_last _ A), L. reflexivity.
  - simpl in Hp. apply andb_true_iff in Hp as [Hc Hp].
    change (String c pre +:+ id) with (String c (pre +:+ id)).
    rewrite find_first_cons, token_at_last
      by (simpl; now rewrite Hc, all_chars_app, Hp, A).
    replace (String.length (String c (pre +:+ id)) =? 10)%nat with false; [now apply IH|].
    symmetry. apply Nat.eqb_neq. simpl. rewrite append_length, L. lia.
Qed.

(** C9, amended.  When the path pattern finds nothing in the trimmed input,
    the extraction is empty exactly when every maximal run of letters and
    digits that is followed by [/], [?] or the end of the trimmed input has
    fewer than ten code units: the fallback pattern also matches the last
    ten code units of a longer run.  So an input all of whose runs are
    shorter than ten yields the empty result, and an input that is a single
    run of ten or more letters and digits -- of eleven, say -- yields its last
    ten code units in upper case. *)
Theorem fallback_empty_iff_short_runs :
  (forall s,
      exec true re_path (trim s) = None ->
      (extractAsin s = EmptyString <-> Forall too_short (alnum_runs (trim s)))
      /\ (Forall (fun r => String.length (fst r) < 10) (alnum_runs (trim s)) ->
          extractAsin s = EmptyString))
  /\ (forall pre id,
        all_chars isAlnum pre = true -> is_id id ->
        exec true re_path (trim (pre +:+ id)) = None
        /\ extractAsin (pre +:+ id) = toUpperCase id)
  /\ (forall c id,
        isAlnum c = true -> is_id id ->
        String.length (String c id) = 11
        /\ extractAsin (String c id) = toUpperCase id).
Proof.
  assert (R : forall pre id,
             all_chars isAlnum pre = true -> is_id id ->
             exec true re_path (trim (pre +:+ id)) = None
             /\ extractAsin (pre +:+ id) = toUpperCase id).
  { intros pre id Hp Hid.
    assert (A : all_chars isAlnum (pre +:+ id) = true)
      by (destruct Hid as [_ A]; now rewrite all_chars_app, Hp, A).
    assert (T : trim (pre +:+ id) = pre +:+ id).
    { apply trim_fixed. revert A. apply all_chars_impl.
      intros c Hc. now rewrite alnum_not_space. }
    assert (P : find_path (pre +:+ id) = None) by now apply find_path_alnum.
    split.
    - rewrite T. now apply (exec_from_none re_path path_at matcher_path).
    - rewrite extractAsin_eq, T, P, (find_token_run_end _ _ Hp Hid).
      destruct Hid as [L _]. destruct pre; [|reflexivity].
      simpl. now rewrite (length_10_truthy id L). }
  split_and!.
  - intros s Hp.
    assert (H : extractAsin s = EmptyString <-> Forall too_short (alnum_runs (trim s))).
    { unfold alnum_runs. rewrite <- (find_token_runs EmptyString (trim s) eq_refl).
      simpl append. rewrite extractAsin_eq.
      apply (exec_from_none re_path path_at matcher_path) in Hp. unfold find_path. rewrite Hp.
      destruct (truthy s) eqn:Hs; simpl negb; cbv iota.
      - destruct (find_token (trim s)) as [id|] eqn:E; [|tauto].
        split; [|discriminate]. intros Hu. exfalso.
        apply find_first_some in E as (_ & suf & _ & Ht & _).
        apply token_at_length in Ht. rewrite <- toUpperCase_length, Hu in Ht. discriminate.
      - destruct s; [|discriminate]. split; reflexivity. }
    split; [exact H|]. intros Hall. apply H.
    eapply Forall_impl; [exact Hall|]. intros r Hr _. exact Hr.
  - exact R.
  - intros c id Hc Hid. split; [simpl; now destruct Hid as [-> _]|].
    apply (R (String c EmptyString) id); [simpl; now rewrite Hc|exact Hid].
Qed.

Lemma fallback_empty_iff_short_runs_witness :
  exec true re_path (trim " amzn.to/abc123?B08N5WRWNW-x ") = None
  /\ alnum_runs (trim " amzn.to/abc123?B08N5WRWNW-x ")
     = [("amzn", Some "."%char); ("to", Some "/"%char); ("abc123", Some "?"%char);
        ("B08N5WRWNW", Some "-"%char); ("x", None)]
  /\ extractAsin " amzn.to/abc123?B08N5WRWNW-x " = EmptyString
  /\ extractAsin "xb08n5wrwnw" = "B08N5WRWNW".
Proof.
  split_and!; [vm_compute; reflexivity ..| |].
  - destruct (proj1 fallback_empty_iff_short_runs " amzn.to/abc123?B08N5WRWNW-x ") as [H _];
      [vm_compute; reflexivity|].
    apply H. vm_compute.
    repeat (apply List.Forall_cons; [intros Hb; try discriminate Hb; lia|]).
    apply List.Forall_nil.
  - destruct (proj2 (proj2 fallback_empty_iff_short_runs) "x"%char "b08n5wrwnw") as [_ H];
      [reflexivity|split; reflexivity|].
    rewrite H. reflexivity.
Defined.

Lemma folds_scheme : each folds "https://".
Proof.
  simpl. split_and!; try exact I; intros c; rewrite eqb_eq; each_code_unit c; split; congruence.
Qed.

Lemma strip_lower w s :
  each folds w ->
  (exists t, strip true w s = Some t) <-> toLowerCase (slice0 (String.length w) s) = w.
Proof.
  unfold toLowerCase, slice0. revert s. induction w as [|p w IH]; intros s H; simpl.
  - rewrite substring_0_0. split; [reflexivity|eauto].
  - destruct H as [Hp Hw]. destruct s as [|c s]; simpl.
    + split; [intros [t [=]]|discriminate].
    + specialize (IH s Hw). pose proof (Hp c) as Hc. unfold canonicalize in *.
      destruct (CodeUnit.eqb (CodeUnit.upper c) (CodeUnit.upper p)) eqn:E.
      * rewrite IH, (proj1 Hc eq_refl). split; [now intros ->|now intros [= ->]].
      * split; [intros [t [=]]|]. intros [= Hl _]. apply Hc in Hl. discriminate.
Qed.

Lemma strip_append i a b s :
  strip i (a +:+ b) s =
  match strip i a s with Some t => strip i b t | None => None end.
Proof.
  revert s. induction a as [|c a IH]; intros s; simpl; [reflexivity|].
  destruct s as [|ch t]; [reflexivity|].
  destruct (CodeUnit.eqb _ _); [apply IH|reflexivity].
Qed.

Lemma exec_from_unfold i r e s :
  exec_from i r e s =
  match matcher i r (MState e s []) Some with
  | Some y => Some (MatchResult e (substring 0 (endIndex y - e) s) (captures y))
  | None =>
      match s with
      | String _ t => exec_from i r (S e) t
      | EmptyString => None
      end
  end.
Proof. destruct s; reflexivity. Qed.

Lemma exec_scheme_later e s : exec_from true re_scheme (S e) s = None.
Proof. revert e. induction s as [|c t IH]; intros e; simpl; [reflexivity|apply IH]. Qed.

Lemma matcher_lit_end i w x :
  matcher i (lit w Empty) x Some =
  option_map (fun t => MState (endIndex x + String.length w) t (captures x))
             (strip i w (rest x)).
Proof. rewrite matcher_lit. now destruct (strip i w (rest x)). Qed.

Lemma test_scheme s :
  test true re_scheme s = true <->
  (exists t, strip true "http://" s = Some t) \/ (exists t, strip true "https://" s = Some t).
Proof.
  unfold test, exec.
  assert (E : exec_from true re_scheme 0 s =
              match matcher true re_scheme (MState 0 s []) Some with
              | Some y => Some (MatchResult 0 (substring 0 (endIndex y - 0) s) (captures y))
              | None => None
              end).
  { rewrite exec_from_unfold.
    destruct (matcher true re_scheme (MState 0 s []) Some); [reflexivity|].
    destruct s; [reflexivity|apply exec_scheme_later]. }
  rewrite E. clear E.
  change (matcher true re_scheme (MState 0 s []) Some)
    with (matcher true (lit "http" (Seq (Opt (Char "s")) (lit "://" Empty))) (MState 0 s []) Some).
  rewrite matcher_lit. simpl rest.
  change "http://" with ("http" +:+ "://"). change "https://" with ("http" +:+ "s://").
  rewrite !strip_append.
  destruct (strip true "http" s) as [t|];
    [|split; [discriminate|intros [[t Ht]|[t Ht]]; discriminate Ht]].
  cbn [matcher]. unfold advance at 1. simpl rest.
  destruct t as [|c t'].
  - rewrite matcher_lit_end. simpl.
    split; [discriminate|intros [[t Ht]|[t Ht]]; discriminate Ht].
  - rewrite (matcher_lit_end true "://" (MState _ (String c t') _)). simpl rest.
    change (strip true "s://" (String c t')) with
      (if CodeUnit.eqb (canonicalize true c) (canonicalize true "s")
       then strip true "://" t' else None).
    destruct (CodeUnit.eqb (canonicalize true c) (canonicalize true "s")).
    + rewrite matcher_lit_end. simpl rest.
      destruct (strip true "://" t') as [u|], (strip true "://" (String c t')) as [v|];
        simpl option_map; cbv iota;
        first [ split; [intros _; eauto|reflexivity]
              | split; [discriminate|intros [[w Hw]|[w Hw]]; discriminate Hw] ].
    + destruct (strip true "://" (String c t')) as [v|]; simpl option_map; cbv iota;
        first [ split; [intros _; eauto|reflexivity]
              | split; [discriminate|intros [[w Hw]|[w Hw]]; discriminate Hw] ].
Qed.

(** The test of line 85 is the test for one of the two prefixes. *)
Lemma test_scheme_spec s : test true re_scheme s = true <-> starts_with_scheme s.
Proof.
  rewrite test_scheme. unfold starts_with_scheme.
  rewrite <- (strip_lower "http://" s), <- (strip_lower "https://" s); [reflexivity| |];
    pose proof folds_scheme as F; simpl in *; tauto.
Qed.

Example model_product_page :
  UrlModel.parse "https://www.amazon.in/dp/B08N5WRWNW"
  = Some (MkURL "www.amazon.in" "https://www.amazon.in/dp/B08N5WRWNW").
Proof. vm_compute. reflexivity. Qed.

Example model_upper_host :
  UrlModel.parse "HTTP://AMZN.TO" = Some (MkURL "amzn.to" "http://amzn.to/").
Proof. vm_compute. reflexivity. Qed.

Example model_no_scheme : UrlModel.parse "amazon.in" = None.
Proof. vm_compute. reflexivity. Qed.

(** A direct URL with an upper-case scheme and host: the target is the
    string form of the URL, the identifier of the document comes from the
    target, and its tag is the default one. *)
Example go_direct_sample :
  go UrlModel.parse (Request {[ "to" := "HTTPS://WWW.AMAZON.IN/dp/B08N5WRWNW?tag=x" ]} ∅ None)
  = Outcome no_store
      [DocData "https://www.amazon.in/dp/B08N5WRWNW?tag=x" (Some "B08N5WRWNW") "shop4me0e-21"
               None None None None None serverTimestamp]
      (Redirect 302 "https://www.amazon.in/dp/B08N5WRWNW?tag=x").
Proof. vm_compute. reflexivity. Qed.

(** ** The handler *)

Lemma allowlist_has h : h ∈ ALLOWLIST_HOSTS <-> allowed_host h.
Proof.
  unfold ALLOWLIST_HOSTS, allowed_host.
  rewrite !elem_of_union, !elem_of_singleton. tauto.
Qed.

Lemma truthy_true s : truthy s = true <-> s <> EmptyString.
Proof. destruct s; simpl; split; congruence. Qed.

Lemma or_else_empty s : or_else s EmptyString = s.
Proof. now destruct s. Qed.

Section HandlerFacts.

Variable URL_new : string -> option URL.

Lemma isAllowedTarget_spec (u : option URL) :
  isAllowedTarget u = true <->
  exists u', u = Some u' /\ allowed_host (toLowerCase (hostname u')).
Proof.
  destruct u as [u'|]; simpl.
  - rewrite or_else_empty, bool_decide_eq_true, allowlist_has.
    split; [eauto|]. now intros (? & [= <-] & H).
  - split; [discriminate|]. now intros (? & [=] & _).
Qed.

Lemma go_resolve req :
  go URL_new req =
  match resolve URL_new req with
  | inl early => Outcome no_store [] early
  | inr target => Outcome no_store [clickDoc req (tag_param req) target] (Redirect 302 target)
  end.
Proof. reflexivity. Qed.

Lemma resolve_direct req :
  to_param req <> EmptyString -> resolve URL_new req = direct_branch URL_new (to_param req).
Proof. intros H%truthy_true. unfold resolve. fold (to_param req). now rewrite H. Qed.

Lemma resolve_identifier req :
  to_param req = EmptyString ->
  resolve URL_new req = identifier_branch (asin_param req) (tag_param req).
Proof. intros H. unfold resolve. fold (to_param req). now rewrite H. Qed.

Lemma direct_branch_cases to :
  direct_branch URL_new to =
  if test true re_scheme to then
    match URL_new to with
    | Some u =>
        if bool_decide (allowed_host (toLowerCase (hostname u)))
        then inr (href u) else inl (Send 400 "Target host not allowed.")
    | None => inl (Send 400 "Target host not allowed.")
    end
  else inl (Send 400 "Invalid 'to' URL (must start with http/https).").
Proof.
  unfold direct_branch, safeUrl. destruct (test true re_scheme to); [|reflexivity]. simpl.
  destruct (URL_new to) as [u|]; [|reflexivity]. simpl. rewrite or_else_empty.
  rewrite (bool_decide_ext _ _ (allowlist_has _)).
  now destruct (bool_decide (allowed_host _)).
Qed.

End HandlerFacts.

(** ** The direct-URL branch *)

(** The outcome of a request whose trimmed [to] is not empty. *)
Lemma go_direct URL_new req :
  to_param req <> EmptyString ->
  go URL_new req =
  if test true re_scheme (to_param req) then
    match URL_new (to_param req) with
    | Some u =>
        if bool_decide (allowed_host (toLowerCase (hostname u)))
        then Outcome no_store [clickDoc req (tag_param req) (href u)] (Redirect 302 (href u))
        else Outcome no_store [] (Send 400 "Target host not allowed.")
    | None => Outcome no_store [] (Send 400 "Target host not allowed.")
    end
  else Outcome no_store [] (Send 400 "Invalid 'to' URL (must start with http/https).").
Proof.
  intros Hto. rewrite go_resolve, (resolve_direct _ _ Hto), direct_branch_cases.
  destruct (test true re_scheme (to_param req)); [|reflexivity].
  destruct (URL_new (to_param req)) as [u|]; [|reflexivity].
  now destruct (bool_decide (allowed_host (toLowerCase (hostname u)))).
Qed.

(** C1, as stated, fails for a [to] that does not parse: the bare host
    [amazon.in] is on the direct-URL branch and is no URL, and the response
    is the 400 of the scheme test, whose body is not that of the allowlist. *)
Lemma allowlist_gate_counterexample :
  let req := Request {[ "to" := "amazon.in" ]} ∅ None in
  to_param req <> EmptyString
  /\ UrlModel.parse (to_param req) = None
  /\ go UrlModel.parse req
     = Outcome no_store [] (Send 400 "Invalid 'to' URL (must start with http/https).")
  /\ res (go UrlModel.parse req) <> Send 400 "Target host not allowed.".
Proof. vm_compute. split_and!; try reflexivity; discriminate. Qed.

(** C1, amended.  On the direct-URL branch a redirect is issued only to a URL
    whose lower-cased hostname is, to the letter, one of the four configured
    hosts.  When the trimmed [to] begins with [http://] or [https://]: an
    allowed host is redirected to, and every other hostname and every [to]
    that does not parse gets 400 with the body of the allowlist and no click
    document.  When it does not begin so, the response is the 400 of the
    scheme test, whatever the hostname.  So a host outside the set, or an
    unparsable [to], always ends in a 400 without redirect. *)
Theorem allowlist_gate URL_new req :
  to_param req <> EmptyString ->
  (forall st loc,
      res (go URL_new req) = Redirect st loc ->
      exists u, URL_new (to_param req) = Some u
                /\ allowed_host (toLowerCase (hostname u)) /\ st = 302 /\ loc = href u)
  /\ (starts_with_scheme (to_param req) ->
      match URL_new (to_param req) with
      | Some u =>
          (allowed_host (toLowerCase (hostname u)) ->
           res (go URL_new req) = Redirect 302 (href u))
          /\ (~ allowed_host (toLowerCase (hostname u)) ->
              go URL_new req = Outcome no_store [] (Send 400 "Target host not allowed."))
      | None => go URL_new req = Outcome no_store [] (Send 400 "Target host not allowed.")
      end)
  /\ (~ starts_with_scheme (to_param req) ->
      go URL_new req
      = Outcome no_store [] (Send 400 "Invalid 'to' URL (must start with http/https)."))
  /\ ((URL_new (to_param req) = None
       \/ exists u, URL_new (to_param req) = Some u
                    /\ ~ allowed_host (toLowerCase (hostname u))) ->
      exists body, go URL_new req = Outcome no_store [] (Send 400 body)).
Proof.
  intros Hto. rewrite (go_direct _ _ Hto).
  destruct (test true re_scheme (to_param req)) eqn:Ht.
  - assert (Hs : starts_with_scheme (to_param req)) by now apply test_scheme_spec.
    destruct (URL_new (to_param req)) as [u|] eqn:Hu.
    + destruct (bool_decide (allowed_host (toLowerCase (hostname u)))) eqn:Ha.
      * apply bool_decide_eq_true in Ha. split_and!.
        -- intros st loc [= <- <-]. eauto.
        -- intros _. split; [reflexivity|contradiction].
        -- contradiction.
        -- intros [[=]|(u' & [= <-] & Hn)]. contradiction.
      * apply bool_decide_eq_false in Ha. split_and!.
        -- discriminate.
        -- intros _. split; [contradiction|reflexivity].
        -- contradiction.
        -- eauto.
    + split_and!; [discriminate|reflexivity|contradiction|eauto].
  - assert (Hs : ~ starts_with_scheme (to_param req)).
    { rewrite <- test_scheme_spec, Ht. discriminate. }
    split_and!; [discriminate|contradiction|reflexivity|eauto].
Qed.

Lemma allowlist_gate_witness :
  let req := Request {[ "to" := " https://Shop.Amazon.IN/dp/B08N5WRWNW " ]} ∅ None in
  let req' := Request {[ "to" := "HTTPS://M.Amazon.IN/dp/B08N5WRWNW" ]} ∅ None in
  to_param req <> EmptyString
  /\ UrlModel.parse (to_param req)
     = Some (MkURL "shop.amazon.in" "https://shop.amazon.in/dp/B08N5WRWNW")
  /\ res (go UrlModel.parse req') = Redirect 302 "https://m.amazon.in/dp/B08N5WRWNW"
  /\ go UrlModel.parse req = Outcome no_store [] (Send 400 "Target host not allowed.").
Proof.
  assert (Hto : to_param (Request {[ "to" := " https://Shop.Amazon.IN/dp/B08N5WRWNW " ]} ∅ None)
                <> EmptyString) by (vm_compute; discriminate).
  split_and!; [exact Hto|vm_compute; reflexivity..|].
  destruct (allowlist_gate UrlModel.parse _ Hto) as (_ & H & _).
  apply H.
  - vm_compute. now right.
  - vm_compute. intros [H1|[H1|[H1|H1]]]; discriminate H1.
Defined.

(** C2. A [to] that is not empty after trimming and does not begin with
    [http://] or [https://], in any mix of cases, gets the 400 of the scheme
    test, no redirect and no click document, whatever the URL constructor
    would make of it or of it behind a scheme: the allowlist is not
    consulted. *)
Theorem scheme_required req :
  to_param req <> EmptyString ->
  ~ starts_with_scheme (to_param req) ->
  forall URL_new,
    go URL_new req
    = Outcome no_store [] (Send 400 "Invalid 'to' URL (must start with http/https).").
Proof.
  intros Hto Hs URL_new. rewrite (go_direct _ _ Hto).
  destruct (test true re_scheme (to_param req)) eqn:Ht; [|reflexivity].
  now apply test_scheme_spec in Ht.
Qed.

Lemma scheme_required_witness :
  let req := Request {[ "to" := "www.amazon.in/dp/B08N5WRWNW" ]} ∅ None in
  UrlModel.parse ("https://" +:+ to_param req)
  = Some (MkURL "www.amazon.in" "https://www.amazon.in/dp/B08N5WRWNW")
  /\ go UrlModel.parse req
     = Outcome no_store [] (Send 400 "Invalid 'to' URL (must start with http/https).").
Proof.
  split; [vm_compute; reflexivity|].
  apply scheme_required.
  - vm_compute. discriminate.
  - vm_compute. intros [H|H]; discriminate H.
Defined.

(** ** The identifier branch *)

Lemma trimEnd_idempotent s : trimEnd (trimEnd s) = trimEnd s.
Proof.
  induction s as [|c t IH]; [reflexivity|]. simpl.
  destruct (trimEnd t) as [|d t'] eqn:E.
  - destruct (CodeUnit.isWhiteSpace c) eqn:W; [reflexivity|]. simpl. now rewrite W.
  - change (trimEnd (String c (String d t'))) with
      (match trimEnd (String d t') with
       | EmptyString => if CodeUnit.isWhiteSpace c then EmptyString else String c EmptyString
       | u => String c u end).
    now rewrite IH.
Qed.

Lemma trimStart_head s :
  trimStart s = EmptyString
  \/ exists c t, trimStart s = String c t /\ CodeUnit.isWhiteSpace c = false.
Proof.
  induction s as [|c t IH]; simpl; [now left|].
  destruct (CodeUnit.isWhiteSpace c) eqn:W; [exact IH|right; eauto].
Qed.

Lemma trim_idempotent s : trim (trim s) = trim s.
Proof.
  unfold trim. destruct (trimStart_head s) as [->|(c & t & -> & W)]; [reflexivity|].
  rewrite (trimEnd_cons c t W). simpl trimStart. rewrite W.
  now rewrite (trimEnd_cons _ _ W), trimEnd_idempotent.
Qed.

Lemma encode_unreserved s :
  all_chars isUnreserved s = true -> encodeURIComponent s = s.
Proof.
  induction s as [|c t IH]; simpl; [reflexivity|].
  intros [Hc Ht]%andb_true_iff. now rewrite Hc, IH.
Qed.

Lemma go_identifier URL_new req :
  to_param req = EmptyString ->
  go URL_new req =
  if truthy (extractAsin (asin_param req)) then
    let target := buildAmazonAffiliateUrl (extractAsin (asin_param req)) (tag_param req) in
    Outcome no_store [clickDoc req (tag_param req) target] (Redirect 302 target)
  else Outcome no_store [] (Send 400 "Missing target. Provide ?to=<url> or ?asin=<ASIN>.").
Proof.
  intros Hto. rewrite go_resolve, (resolve_identifier _ _ Hto). unfold identifier_branch.
  now destruct (truthy (extractAsin (asin_param req))).
Qed.

Lemma build_url A req :
  buildAmazonAffiliateUrl A (tag_param req)
  = "https://www.amazon.in/dp/" +:+ encodeURIComponent A
    +:+ "?tag=" +:+ encodeURIComponent (effective_tag req).
Proof.
  unfold buildAmazonAffiliateUrl, effective_tag, AMAZON_HOST, or_else.
  destruct (truthy (tag_param req)) eqn:T.
  - unfold tag_param in *. rewrite trim_idempotent, T. reflexivity.
  - reflexivity.
Qed.

(** C3. On the identifier branch, with an identifier [A] extracted from the
    trimmed [asin], the handler sends no 400, and the destination it resolves
    and redirects to is [https://www.amazon.in/dp/<A>?tag=<T>] with [A] and
    [T] percent-encoded, [T] being the trimmed [tag] or, when that is empty,
    [shop4me0e-21]; the encoding leaves [A] as it is.  The destination is
    stated for the redirect that is sent: [encodeURIComponent] throws on an
    unpaired surrogate in the tag, and the handler then answers from its
    [catch] instead.  The two requests of the specification, whose tags are
    absent or plain, are redirected as the specification says. *)
Theorem identifier_branch_destination :
  (forall URL_new req A,
      to_param req = EmptyString ->
      extractAsin (asin_param req) = A -> A <> EmptyString ->
      (forall st loc,
          res (go URL_new req) = Redirect st loc ->
          st = 302
          /\ loc = "https://www.amazon.in/dp/" +:+ encodeURIComponent A
                   +:+ "?tag=" +:+ encodeURIComponent (effective_tag req))
      /\ (forall body, res (go URL_new req) <> Send 400 body)
      /\ encodeURIComponent A = A)
  /\ (forall URL_new req,
        req_query req !! "to" = None ->
        req_query req !! "asin" = Some "B08N5WRWNW" ->
        (req_query req !! "tag" = None ->
         res (go URL_new req)
         = Redirect 302 "https://www.amazon.in/dp/B08N5WRWNW?tag=shop4me0e-21")
        /\ (req_query req !! "tag" = Some "mytag-20" ->
            res (go URL_new req)
            = Redirect 302 "https://www.amazon.in/dp/B08N5WRWNW?tag=mytag-20")).
Proof.
  split.
  - intros URL_new req A Hto HA Hne. rewrite (go_identifier _ _ Hto), HA.
    apply truthy_true in Hne as Ht. rewrite Ht. cbv zeta. simpl res.
    rewrite build_url. split_and!.
    + intros st loc [= <- <-]. split; reflexivity.
    + discriminate.
    + apply encode_unreserved. subst A.
      destruct (extractAsin_shape (asin_param req)) as [E|[_ U]]; [now rewrite E|].
      revert U. apply all_chars_impl. intros c Hc.
      now apply alnum_unreserved, upper_alnum_is_alnum.
  - intros URL_new req Hto Hasin.
    assert (E : forall t, req_query req !! "tag" = t ->
                res (go URL_new req)
                = Redirect 302 (buildAmazonAffiliateUrl "B08N5WRWNW" (trim (text t)))).
    { intros t Ht. rewrite go_identifier by (unfold to_param; now rewrite Hto).
      unfold asin_param, tag_param. rewrite Hasin, Ht. reflexivity. }
    split; intros Ht; rewrite (E _ Ht); vm_compute; reflexivity.
Qed.

Lemma identifier_branch_destination_witness :
  let req := Request {[ "asin" := " /dp/b08n5wrwnw?ref=x "; "tag" := " a&b " ]} ∅ None in
  res (go UrlModel.parse req) = Redirect 302 "https://www.amazon.in/dp/B08N5WRWNW?tag=a%26b"
  /\ "https://www.amazon.in/dp/B08N5WRWNW?tag=a%26b"
     = "https://www.amazon.in/dp/" +:+ encodeURIComponent "B08N5WRWNW"
       +:+ "?tag=" +:+ encodeURIComponent (effective_tag req).
Proof.
  intros req.
  assert (H : res (go UrlModel.parse req)
              = Redirect 302 "https://www.amazon.in/dp/B08N5WRWNW?tag=a%26b")
    by (vm_compute; reflexivity).
  split; [exact H|].
  destruct (proj1 identifier_branch_destination UrlModel.parse req "B08N5WRWNW")
    as (Hr & _ & _).
  - vm_compute. reflexivity.
  - vm_compute. reflexivity.
  - discriminate.
  - now apply (Hr 302).
Defined.

(** C4. With an empty trimmed [to] and nothing extracted from the trimmed
    [asin], the response is 400 with the missing-target body; there is no
    redirect and no click document is handed to the store, which happens only
    after a target has been resolved. *)
Theorem missing_target URL_new req :
  to_param req = EmptyString ->
  extractAsin (asin_param req) = EmptyString ->
  go URL_new req
  = Outcome no_store [] (Send 400 "Missing target. Provide ?to=<url> or ?asin=<ASIN>.")
  /\ added (go URL_new req) = []
  /\ (forall st loc, res (go URL_new req) <> Redirect st loc).
Proof.
  intros Hto HA. rewrite (go_identifier _ _ Hto), HA. simpl.
  split_and!; [reflexivity..|discriminate].
Qed.

Lemma missing_target_witness :
  let req := Request {[ "to" := "   "; "asin" := "B08N5-WRWNW"; "tag" := "t" ]} ∅ None in
  go UrlModel.parse req
  = Outcome no_store [] (Send 400 "Missing target. Provide ?to=<url> or ?asin=<ASIN>.").
Proof.
  cbv zeta. apply missing_target; vm_compute; reflexivity.
Defined.

(** A click document is handed to the store only with a redirect to its
    target. *)
Lemma added_only_on_redirect URL_new req d :
  d ∈ added (go URL_new req) ->
  res (go URL_new req) = Redirect 302 (targetUrl d)
  /\ d = clickDoc req (tag_param req) (targetUrl d).
Proof.
  rewrite go_resolve. destruct (resolve URL_new req) as [early|target]; simpl.
  - intros H. inversion H.
  - intros ->%list_elem_of_singleton. auto.
Qed.

(** ** One branch per request *)

(** C5. The handler resolves the target in exactly one of two branches: the
    direct-URL branch when [to] is not empty after trimming, the identifier
    branch otherwise.  When [to] is not empty after trimming, two requests
    with the same [to] resolve alike and get the same response, whatever
    their [asin], [tag] and other fields. *)
Theorem one_branch_per_request URL_new req :
  (to_param req <> EmptyString
   /\ resolve URL_new req = direct_branch URL_new (to_param req)
   \/ to_param req = EmptyString
      /\ resolve URL_new req = identifier_branch (asin_param req) (tag_param req))
  /\ (forall req',
        to_param req <> EmptyString ->
        req_query req' !! "to" = req_query req !! "to" ->
        resolve URL_new req' = resolve URL_new req
        /\ res (go URL_new req') = res (go URL_new req)).
Proof.
  split.
  - destruct (to_param req) as [|c t] eqn:E.
    + right. split; [reflexivity|]. now apply resolve_identifier.
    + left. split; [discriminate|]. rewrite <- E. apply resolve_direct. now rewrite E.
  - intros req' Hto Hq.
    assert (E : to_param req' = to_param req) by (unfold to_param; now rewrite Hq).
    assert (R : resolve URL_new req' = resolve URL_new req).
    { rewrite !resolve_direct by (now rewrite ?E). now rewrite E. }
    split; [exact R|]. rewrite !go_resolve, R.
    now destruct (resolve URL_new req).
Qed.

Lemma one_branch_per_request_witness :
  let req := Request {[ "to" := "https://amzn.to/abc" ]} ∅ None in
  let req' := Request {[ "to" := "https://amzn.to/abc"; "asin" := "B08N5WRWNW"; "tag" := "t-21" ]}
                      ∅ (Some "10.0.0.1") in
  res (go UrlModel.parse req') = res (go UrlModel.parse req)
  /\ res (go UrlModel.parse req) = Redirect 302 "https://amzn.to/abc".
Proof.
  cbv zeta. split; [|vm_compute; reflexivity].
  apply (proj2 (one_branch_per_request UrlModel.parse
                  (Request {[ "to" := "https://amzn.to/abc" ]} ∅ None))).
  - vm_compute. discriminate.
  - vm_compute. reflexivity.
Defined.

(** ** The click document *)

(** C6. The identifier of the click document is extracted from the raw [asin]
    parameter and, when that gives nothing, from the resolved target.  So
    for [to=https://www.amazon.in/dp/B08N5WRWNW] without [asin], with the URL
    constructor giving this URL its hostname [www.amazon.in] and itself as
    its string form, the response is a 302 to exactly that URL and the
    identifier of the click document is B08N5WRWNW. *)
Theorem direct_product_url_logged :
  (forall URL_new req d,
      d ∈ added (go URL_new req) ->
      res (go URL_new req) = Redirect 302 (targetUrl d)
      /\ asin d = or_null (or_else (extractAsin (text (req_query req !! "asin")))
                                   (extractAsin (targetUrl d))))
  /\ (forall URL_new req,
        req_query req !! "to" = Some "https://www.amazon.in/dp/B08N5WRWNW" ->
        req_query req !! "asin" = None ->
        URL_new "https://www.amazon.in/dp/B08N5WRWNW"
        = Some (MkURL "www.amazon.in" "https://www.amazon.in/dp/B08N5WRWNW") ->
        res (go URL_new req) = Redirect 302 "https://www.amazon.in/dp/B08N5WRWNW"
        /\ exists d, added (go URL_new req) = [d]
                     /\ targetUrl d = "https://www.amazon.in/dp/B08N5WRWNW"
                     /\ asin d = Some "B08N5WRWNW").
Proof.
  split.
  - intros URL_new req d [Hr ->]%added_only_on_redirect. split; [exact Hr|].
    simpl. now rewrite or_else_empty.
  - intros URL_new req Hto Hasin Hu.
    assert (Ht : to_param req = "https://www.amazon.in/dp/B08N5WRWNW")
      by (unfold to_param; rewrite Hto; vm_compute; reflexivity).
    rewrite go_direct by (rewrite Ht; discriminate). rewrite Ht, Hu.
    replace (test true re_scheme "https://www.amazon.in/dp/B08N5WRWNW") with true
      by (vm_compute; reflexivity).
    rewrite bool_decide_true by (vm_compute; auto).
    split; [reflexivity|]. eexists. split; [reflexivity|]. split; [reflexivity|].
    simpl. rewrite Hasin. vm_compute. reflexivity.
Qed.

Lemma direct_product_url_logged_witness :
  let req := Request {[ "to" := "https://www.amazon.in/dp/B08N5WRWNW"; "src" := "mail" ]}
                     {[ "user-agent" := "curl" ]} None in
  res (go UrlModel.parse req) = Redirect 302 "https://www.amazon.in/dp/B08N5WRWNW"
  /\ exists d, added (go UrlModel.parse req) = [d]
               /\ targetUrl d = "https://www.amazon.in/dp/B08N5WRWNW"
               /\ asin d = Some "B08N5WRWNW".
Proof.
  cbv zeta. apply (proj2 direct_product_url_logged UrlModel.parse); vm_compute; reflexivity.
Defined.

Lemma split_comma_0_first first others :
  all_chars (fun c => negb (CodeUnit.eqb c ",")) first = true ->
  others = EmptyString \/ (exists t, others = String "," t) ->
  split_comma_0 (first +:+ others) = first.
Proof.
  intros Hf Ho. induction first as [|c first IH]; simpl in *.
  - destruct Ho as [->|[t ->]]; reflexivity.
  - apply andb_true_iff in Hf as [Hc Hf]. apply negb_true_iff in Hc.
    now rewrite Hc, (IH Hf).
Qed.

(** C10. The client address of a click document is the first of the
    comma-separated components of the [x-forwarded-for] header, trimmed;
    when that is empty, the peer address the transport reports; when both
    are empty, null.  Of several forwarded addresses only the first is
    recorded. *)
Theorem click_ip_first_forwarded URL_new req d first others :
  d ∈ added (go URL_new req) ->
  text (req_headers req !! "x-forwarded-for") = first +:+ others ->
  all_chars (fun c => negb (CodeUnit.eqb c ",")) first = true ->
  others = EmptyString \/ (exists t, others = String "," t) ->
  ip d = if truthy (trim first) then Some (trim first)
         else match req_ip req with
              | Some peer => if truthy peer then Some peer else None
              | None => None
              end.
Proof.
  intros [_ ->]%added_only_on_redirect Hx Hf Ho. simpl.
  rewrite Hx, (split_comma_0_first _ _ Hf Ho). unfold or_null, or_else.
  destruct (truthy (trim first)) eqn:T; [now rewrite T|].
  destruct (req_ip req) as [peer|]; simpl; [|reflexivity].
  destruct (truthy peer) eqn:P; [now rewrite P|reflexivity].
Qed.

Lemma click_ip_first_forwarded_witness :
  let req := Request {[ "asin" := "B08N5WRWNW" ]}
                     {[ "x-forwarded-for" := " 203.0.113.7 , 10.0.0.2, 10.0.0.3" ]}
                     (Some "10.0.0.9") in
  let d := clickDoc req "" "https://www.amazon.in/dp/B08N5WRWNW?tag=shop4me0e-21" in
  added (go UrlModel.parse req) = [d] /\ ip d = Some "203.0.113.7".
Proof.
  intros req d.
  assert (Ha : added (go UrlModel.parse req) = [d]) by (vm_compute; reflexivity).
  split; [exact Ha|].
  rewrite (click_ip_first_forwarded UrlModel.parse req d " 203.0.113.7 " ", 10.0.0.2, 10.0.0.3").
  - vm_compute. reflexivity.
  - rewrite Ha. apply list_elem_of_here.
  - vm_compute. reflexivity.
  - vm_compute. reflexivity.
  - right. eexists. reflexivity.
Defined.

(** * Further properties of the source functions *)

(** ** extractAsin *)

Lemma find_token_none t :
  find_token t = None <-> (forall pre id suf, ~ token_match t pre id suf).
Proof.
  unfold find_token. rewrite find_first_none. split.
  - intros H pre id suf (-> & Hid & Hb).
    assert (Ht : token_at (id +:+ suf) = Some id) by (apply token_at_spec; eauto).
    rewrite (H pre _ eq_refl) in Ht. discriminate.
  - intros H pre suf ->. destruct (token_at suf) as [id|] eqn:E; [|reflexivity].
    apply token_at_spec in E as (suf' & -> & Hid & Hb).
    destruct (H pre id suf'). now split_and!.
Qed.

(** A path-shaped match ends in a match of the fallback pattern. *)
Lemma find_path_token t id : find_path t = Some id -> find_token t <> None.
Proof.
  intros (pre & suf0 & -> & Hp & _)%find_first_some.
  apply path_at_spec in Hp as (kw & suf & -> & _ & Hid & Hb).
  assert (Ht : token_at (id +:+ suf) = Some id) by (apply token_at_spec; eauto).
  destruct (find_first_found token_at
              (pre +:+ "/" +:+ kw +:+ "/" +:+ id +:+ suf)
              (pre +:+ "/" +:+ kw +:+ "/") (id +:+ suf) id) as [v Hv]; [|exact Ht|].
  - now rewrite !append_assoc.
  - unfold find_token. rewrite Hv. discriminate.
Qed.

Lemma toUpperCase_id_nonempty id : String.length id = 10 -> toUpperCase id <> EmptyString.
Proof. intros L E. rewrite <- toUpperCase_length, E in L. discriminate. Qed.

Lemma extractAsin_empty_iff s : extractAsin s = EmptyString <-> find_token (trim s) = None.
Proof.
  rewrite extractAsin_eq. destruct (truthy s) eqn:Hs; simpl negb; cbv iota.
  - destruct (find_path (trim s)) as [id|] eqn:Ep.
    + split.
      * intros E. apply find_first_some in Ep as (_ & suf & _ & Hp & _).
        now apply path_at_length, toUpperCase_id_nonempty in Hp.
      * intros E. now apply find_path_token in Ep.
    + destruct (find_token (trim s)) as [id|] eqn:Et; [|tauto].
      split; [|discriminate]. intros E.
      apply find_first_some in Et as (_ & suf & _ & Ht & _).
      now apply token_at_length, toUpperCase_id_nonempty in Ht.
  - destruct s; [|discriminate]. split; reflexivity.
Qed.

(** X1. The extraction is empty exactly when the trimmed input holds no ten
    letters or digits followed by [/], [?] or its end, wherever they start;
    a path-shaped match is such an occurrence too. *)
Theorem extractAsin_empty_iff_no_token s :
  extractAsin s = EmptyString <-> (forall pre id suf, ~ token_match (trim s) pre id suf).
Proof.
  rewrite extractAsin_empty_iff. apply find_token_none.
Qed.

Lemma extractAsin_trim s : extractAsin (trim s) = extractAsin s.
Proof.
  rewrite !extractAsin_eq, trim_idempotent.
  destruct (truthy (trim s)) eqn:Ht.
  - destruct s; [discriminate Ht|reflexivity].
  - destruct (trim s); [|discriminate Ht]. now destruct (truthy s).
Qed.

Lemma trimStart_blank a x : is_blank a -> trimStart (a +:+ x) = trimStart x.
Proof.
  unfold is_blank. induction a as [|c a IH]; simpl; [reflexivity|].
  intros [Hc Ha]%andb_true_iff. rewrite Hc. auto.
Qed.

Lemma trimEnd_blank b : is_blank b -> trimEnd b = EmptyString.
Proof.
  unfold is_blank. induction b as [|c b IH]; simpl; [reflexivity|].
  intros [Hc Hb]%andb_true_iff. now rewrite (IH Hb), Hc.
Qed.

Lemma trimEnd_app_blank x b : is_blank b -> trimEnd (x +:+ b) = trimEnd x.
Proof.
  intros Hb. induction x as [|c x IH]; simpl; [now apply trimEnd_blank|]. now rewrite IH.
Qed.

Lemma trimStart_app_blank s b :
  is_blank b -> trimEnd (trimStart (s +:+ b)) = trimEnd (trimStart s).
Proof.
  intros Hb. induction s as [|c s IH]; simpl.
  - rewrite trimEnd_blank; [reflexivity|].
    clear - Hb. unfold is_blank in *. induction b as [|c b IH]; simpl in *; [reflexivity|].
    apply andb_true_iff in Hb as [Hc Hb]. rewrite Hc. auto.
  - destruct (CodeUnit.isWhiteSpace c); [exact IH|].
    change (String c (s +:+ b)) with (String c s +:+ b). now apply trimEnd_app_blank.
Qed.

Lemma trim_padded a s b : is_blank a -> is_blank b -> trim (a +:+ s +:+ b) = trim s.
Proof.
  intros Ha Hb. unfold trim. rewrite (trimStart_blank a _ Ha). now apply trimStart_app_blank.
Qed.

Lemma trim_inside s : exists a b, s = a +:+ trim s +:+ b.
Proof.
  assert (HS : forall u, exists a, u = a +:+ trimStart u).
  { induction u as [|c u [a IH]]; simpl; [now exists EmptyString|].
    destruct (CodeUnit.isWhiteSpace c); [|now exists EmptyString].
    exists (String c a). simpl. now rewrite <- IH. }
  assert (HE : forall u, exists b, u = trimEnd u +:+ b).
  { induction u as [|c u [b IH]]; [now exists EmptyString|]. simpl.
    destruct (trimEnd u) as [|d t] eqn:E.
    - destruct (CodeUnit.isWhiteSpace c).
      + exists (String c u). reflexivity.
      + exists b. simpl. now rewrite IH at 1.
    - exists b. simpl. now rewrite IH at 1. }
  destruct (HS s) as [a Ha]. destruct (HE (trimStart s)) as [b Hb].
  exists a, b. unfold trim. now rewrite <- Hb.
Qed.

(** X2. Surrounding white space does not matter: padding an input with
    white space on either side leaves the extraction unchanged. *)
Theorem extractAsin_ignores_padding a s b :
  is_blank a -> is_blank b -> extractAsin (a +:+ s +:+ b) = extractAsin s.
Proof.
  intros Ha Hb. rewrite <- (extractAsin_trim (a +:+ s +:+ b)), <- (extractAsin_trim s).
  now rewrite trim_padded.
Qed.

Lemma extractAsin_ignores_padding_witness :
  extractAsin (String (ascii_of_N 9) "  " +:+ "/dp/b08n5wrwnw" +:+ String (ascii_of_N 160) " ")
  = extractAsin "/dp/b08n5wrwnw"
  /\ extractAsin "/dp/b08n5wrwnw" = "B08N5WRWNW".
Proof.
  split; [|vm_compute; reflexivity].
  apply extractAsin_ignores_padding; vm_compute; reflexivity.
Defined.

(** X3. A result that is not empty is taken from the input: it is the upper
    case of ten consecutive letters or digits of the input. *)
Theorem extractAsin_from_input s :
  extractAsin s = EmptyString
  \/ exists pre id suf, s = pre +:+ id +:+ suf /\ is_id id /\ extractAsin s = toUpperCase id.
Proof.
  destruct (trim_inside s) as (a & b & Hs).
  rewrite extractAsin_eq. destruct (negb (truthy s)); [now left|].
  destruct (find_path (trim s)) as [id|] eqn:Ep.
  { right. apply find_first_some in Ep as (p & suf0 & Et & Hp & _).
    apply path_at_spec in Hp as (kw & suf & -> & _ & Hid & _).
    exists (a +:+ p +:+ "/" +:+ kw +:+ "/"), id, (suf +:+ b). split_and!; auto.
    rewrite Hs at 1. rewrite Et, !append_assoc. reflexivity. }
  destruct (find_token (trim s)) as [id|] eqn:Et; [|now left].
  right. apply find_first_some in Et as (p & suf0 & Etr & Ht & _).
  apply token_at_spec in Ht as (suf & -> & Hid & _).
  exists (a +:+ p), id, (suf +:+ b). split_and!; auto.
  rewrite Hs at 1. rewrite Etr, !append_assoc. reflexivity.
Qed.

(** Trimming keeps ten letters or digits at a boundary. *)
Lemma trim_token_match s pre id suf :
  token_match s pre id suf -> token_match (trim s) (trimStart pre) id (trimEnd suf).
Proof.
  intros (-> & Hid & Hb). split_and!; auto using at_boundary_trimEnd.
  destruct (is_id_last id Hid) as (a & c & Heq & Hc).
  destruct id as [|c0 id']; [now destruct Hid|].
  assert (H0 : isAlnum c0 = true).
  { destruct Hid as [_ A]. simpl in A. now apply andb_true_iff in A as [A _]. }
  unfold trim. change (pre +:+ String c0 id' +:+ suf) with (pre +:+ String c0 (id' +:+ suf)).
  rewrite trimStart_app by now apply alnum_not_space.
  change (String c0 (id' +:+ suf)) with (String c0 id' +:+ suf). rewrite Heq.
  assert (E : forall x, trimStart pre +:+ (a +:+ String c "") +:+ x
                        = (trimStart pre +:+ a) +:+ String c x).
  { intros x. rewrite !append_assoc. reflexivity. }
  rewrite E, trimEnd_app by now apply alnum_not_space. now rewrite <- E.
Qed.

(** X4. When the path pattern finds nothing in the trimmed input and the
    input holds ten letters or digits followed by [/], [?] or the end, the
    result is the upper case of the leftmost such occurrence in the trimmed
    input. *)
Theorem fallback_returns_leftmost_token s pre id suf :
  exec true re_path (trim s) = None ->
  token_match s pre id suf ->
  exists pre' id' suf',
    token_match (trim s) pre' id' suf'
    /\ (forall p i u, token_match (trim s) p i u -> String.length pre' <= String.length p)
    /\ extractAsin s = toUpperCase id'.
Proof.
  intros Hp H. pose proof (trim_token_match _ _ _ _ H) as (Ht & Hid & Hb).
  assert (Hs : truthy s = true).
  { destruct H as (-> & [L _] & _). destruct pre; [|reflexivity]. now destruct id. }
  assert (Hk : token_at (id +:+ trimEnd suf) = Some id)
    by (apply token_at_spec; exists (trimEnd suf); auto).
  destruct (find_first_found _ _ _ _ _ Ht Hk) as [id' Hf].
  apply (exec_from_none re_path path_at matcher_path) in Hp.
  rewrite extractAsin_eq, Hs. unfold find_path, find_token. rewrite Hp, Hf. simpl negb. cbv iota.
  apply find_first_some in Hf as (pre' & rest' & E & Hk' & Hmin).
  apply token_at_spec in Hk' as (suf' & -> & Hid' & Hb').
  exists pre', id', suf'. split_and!; [now split_and!| |reflexivity].
  intros p i u (Ep & Hi & Hu).
  destruct (Nat.le_gt_cases (String.length pre') (String.length p)) as [|Hlt]; [assumption|].
  assert (Hq : token_at (i +:+ u) = Some i) by (apply token_at_spec; exists u; auto).
  rewrite (Hmin _ _ Ep Hlt) in Hq. discriminate.
Qed.

Lemma fallback_returns_leftmost_token_witness :
  let s := " amzn.to/b08n5wrwnw?x=B000000002 " in
  extractAsin s = "B08N5WRWNW"
  /\ exists pre' id' suf',
       token_match (trim s) pre' id' suf'
       /\ (forall p i u, token_match (trim s) p i u -> String.length pre' <= String.length p)
       /\ extractAsin s = toUpperCase id'.
Proof.
  split; [vm_compute; reflexivity|].
  apply (fallback_returns_leftmost_token _ " amzn.to/" "b08n5wrwnw" "?x=B000000002 ").
  - vm_compute. reflexivity.
  - vm_compute. split_and!; auto.
Defined.

(** X5. A bare identifier, ten letters or digits in any case, is returned in
    upper case. *)
Theorem extractAsin_bare_identifier id :
  is_id id -> extractAsin id = toUpperCase id.
Proof.
  intros [L A].
  rewrite extractAsin_eq, (length_10_truthy id L). simpl negb. cbv iota.
  rewrite trim_fixed
    by (revert A; apply all_chars_impl; intros c Hc; now rewrite alnum_not_space).
  assert (P : find_path id = None).
  { apply find_first_none. intros pre suf ->.
    destruct (path_at suf) as [i|] eqn:E; [|reflexivity].
    apply path_at_spec in E as (kw & suf' & -> & _).
    rewrite all_chars_app in A. apply andb_true_iff in A as [_ A]. discriminate A. }
  rewrite P.
  assert (T : token_at id = Some id).
  { apply token_at_spec. exists EmptyString. split_and!; [|now split|reflexivity].
    now rewrite append_nil_r. }
  unfold find_token. now rewrite (find_first_here _ _ _ T).
Qed.

Lemma extractAsin_bare_identifier_witness : extractAsin "b08n5wRWNw" = "B08N5WRWNW".
Proof.
  rewrite (extractAsin_bare_identifier "b08n5wRWNw"); [reflexivity|].
  split; reflexivity.
Defined.

(** ** buildAmazonAffiliateUrl *)

Lemma encode_cons c t :
  encodeURIComponent (String c t) = escaped c +:+ encodeURIComponent t.
Proof. reflexivity. Qed.

Lemma escaped_safe c : all_chars url_safe (escaped c) = true.
Proof. each_code_unit c. Qed.

Lemma escaped_truthy c : truthy (escaped c) = true.
Proof. each_code_unit c. Qed.

Lemma encode_safe s : all_chars url_safe (encodeURIComponent s) = true.
Proof.
  induction s as [|c t IH]; [reflexivity|].
  now rewrite encode_cons, all_chars_app, escaped_safe, IH.
Qed.

Lemma encode_truthy s : truthy s = true -> truthy (encodeURIComponent s) = true.
Proof.
  destruct s as [|c t]; [discriminate|]. intros _. rewrite encode_cons.
  pose proof (escaped_truthy c) as H. now destruct (escaped c).
Qed.

Lemma embedded_tag_truthy tag : truthy (embedded_tag tag) = true.
Proof. unfold embedded_tag. destruct (truthy (trim tag)) eqn:E; [exact E|reflexivity]. Qed.

Lemma build_embedded a tag :
  buildAmazonAffiliateUrl a tag
  = "https://www.amazon.in/dp/" +:+ encodeURIComponent a
    +:+ "?tag=" +:+ encodeURIComponent (embedded_tag tag).
Proof.
  unfold buildAmazonAffiliateUrl, embedded_tag, AMAZON_HOST, or_else.
  destruct tag as [|c t]; [reflexivity|]. simpl truthy at 1. cbv iota.
  now destruct (truthy (trim (String c t))).
Qed.

(** X6. A URL that [buildAmazonAffiliateUrl] returns is
    [https://www.amazon.in/dp/<a>?tag=<t>] where [<a>] and [<t>] hold only
    unreserved code units and percent escapes, so neither argument can add a
    path segment, a query parameter or a fragment; [<t>] encodes the trimmed
    tag, or the default tag when the tag is empty or blank, and is never
    empty.  The function returns for every argument of this development's
    alphabet; on an unpaired surrogate [encodeURIComponent] throws and nothing
    is returned. *)
Theorem buildAmazonAffiliateUrl_shape a tag url :
  buildAmazonAffiliateUrl a tag = url ->
  url = "https://www.amazon.in/dp/" +:+ encodeURIComponent a
        +:+ "?tag=" +:+ encodeURIComponent (embedded_tag tag)
  /\ all_chars url_safe (encodeURIComponent a) = true
  /\ all_chars url_safe (encodeURIComponent (embedded_tag tag)) = true
  /\ encodeURIComponent (embedded_tag tag) <> EmptyString
  /\ (is_blank tag -> embedded_tag tag = "shop4me0e-21").
Proof.
  intros <-. split_and!.
  - apply build_embedded.
  - apply encode_safe.
  - apply encode_safe.
  - apply truthy_true, encode_truthy, embedded_tag_truthy.
  - intros Hb. unfold embedded_tag, trim.
    rewrite <- (append_nil_r tag), (trimStart_blank tag EmptyString Hb). reflexivity.
Qed.

Lemma buildAmazonAffiliateUrl_shape_witness :
  buildAmazonAffiliateUrl "a/b" "  " = "https://www.amazon.in/dp/a%2Fb?tag=shop4me0e-21"
  /\ all_chars url_safe (encodeURIComponent "a/b") = true
  /\ buildAmazonAffiliateUrl "B08N5WRWNW" " x&y=1#z "
     = "https://www.amazon.in/dp/B08N5WRWNW?tag=x%26y%3D1%23z".
Proof.
  assert (H : buildAmazonAffiliateUrl "a/b" "  "
              = "https://www.amazon.in/dp/a%2Fb?tag=shop4me0e-21")
    by (vm_compute; reflexivity).
  split_and!; [exact H| |vm_compute; reflexivity].
  now destruct (buildAmazonAffiliateUrl_shape _ _ _ H) as (_ & S & _).
Defined.

(** ** go *)

(** X7. The handler sets the header [Cache-Control: no-store, max-age=0]
    whatever it answers.  A redirect has status 302 and comes with exactly one
    click document, built for its location; a 400 carries one of the three
    bodies and comes with no click document; a click document is handed to
    the store only with a redirect to its target.  Lines 84-92 do not throw
    for any [to]: [u.toString()] of line 92 is not reached with [u] null, as
    [isAllowedTarget] has refused null before. *)
Theorem outcome_shape URL_new req :
  res_headers (go URL_new req) = [("Cache-Control", "no-store, max-age=0")]
  /\ (forall st loc,
        res (go URL_new req) = Redirect st loc ->
        st = 302 /\ added (go URL_new req) = [clickDoc req (tag_param req) loc])
  /\ (forall body,
        res (go URL_new req) = Send 400 body ->
        added (go URL_new req) = []
        /\ (body = "Invalid 'to' URL (must start with http/https)."
            \/ body = "Target host not allowed."
            \/ body = "Missing target. Provide ?to=<url> or ?asin=<ASIN>."))
  /\ (forall d,
        d ∈ added (go URL_new req) ->
        res (go URL_new req) = Redirect 302 (targetUrl d)
        /\ added (go URL_new req) = [d])
  /\ (forall to body, direct_branch URL_new to <> inl (Send 500 body)).
Proof.
  assert (D : forall to,
             (exists u, URL_new to = Some u /\ direct_branch URL_new to = inr (href u))
             \/ direct_branch URL_new to
                = inl (Send 400 "Invalid 'to' URL (must start with http/https).")
             \/ direct_branch URL_new to = inl (Send 400 "Target host not allowed.")).
  { intros to. rewrite direct_branch_cases.
    destruct (test true re_scheme to); [|auto].
    destruct (URL_new to) as [u|]; [|auto].
    destruct (bool_decide (allowed_host (toLowerCase (hostname u)))); eauto. }
  assert (I : forall a t,
             (exists target, identifier_branch a t = inr target)
             \/ identifier_branch a t
                = inl (Send 400 "Missing target. Provide ?to=<url> or ?asin=<ASIN>.")).
  { intros a t. unfold identifier_branch.
    destruct (truthy (extractAsin a)); simpl; eauto. }
  assert (R : (exists target, resolve URL_new req = inr target)
              \/ resolve URL_new req
                 = inl (Send 400 "Invalid 'to' URL (must start with http/https).")
              \/ resolve URL_new req = inl (Send 400 "Target host not allowed.")
              \/ resolve URL_new req
                 = inl (Send 400 "Missing target. Provide ?to=<url> or ?asin=<ASIN>.")).
  { destruct (to_param req) as [|c t] eqn:Hto.
    - rewrite (resolve_identifier _ _ Hto).
      destruct (I (asin_param req) (tag_param req)) as [H|H]; rewrite ?H; auto.
    - rewrite resolve_direct by (rewrite Hto; discriminate).
      destruct (D (to_param req)) as [(u & _ & H)|[H|H]]; rewrite H; eauto. }
  rewrite go_resolve. split_and!.
  - now destruct (resolve URL_new req).
  - destruct R as [(target & ->) | [-> | [-> | ->]]]; simpl; intros st loc [= <- <-] || discriminate.
    auto.
  - destruct R as [(target & ->) | [-> | [-> | ->]]]; simpl; [discriminate|..];
      intros body [= <-]; auto.
  - destruct R as [(target & ->) | [-> | [-> | ->]]]; simpl; intros d Hd;
      [apply list_elem_of_singleton in Hd as ->; auto|now inversion Hd..].
  - intros to body H. destruct (D to) as [(u & _ & E)|[E|E]]; rewrite E in H; discriminate H.
Qed.

Lemma outcome_shape_witness :
  let req := Request {[ "to" := "https://evil.example/dp/B08N5WRWNW"; "asin" := "B08N5WRWNW" ]}
                     ∅ None in
  res (go UrlModel.parse req) = Send 400 "Target host not allowed."
  /\ added (go UrlModel.parse req) = [].
Proof.
  intros req.
  assert (H : res (go UrlModel.parse req) = Send 400 "Target host not allowed.")
    by (vm_compute; reflexivity).
  split; [exact H|].
  now destruct (proj1 (proj2 (proj2 (outcome_shape UrlModel.parse req))) _ H).
Defined.

(** X8. The handler redirects only with status 302 and only to one of two
    kinds of target: the string form of a URL that [to] parsed into, when
    [to] begins with [http://] or [https://] and the lower-cased hostname is
    one of the four configured hosts; or, when [to] is empty after trimming,
    [https://www.amazon.in/dp/<ID>?tag=<tag>] with [<ID>] ten code units of
    A-Z and 0-9 and the tag percent-encoded. *)
Theorem redirect_targets URL_new req st loc :
  res (go URL_new req) = Redirect st loc ->
  st = 302
  /\ ((to_param req <> EmptyString
       /\ starts_with_scheme (to_param req)
       /\ exists u, URL_new (to_param req) = Some u
                    /\ allowed_host (toLowerCase (hostname u)) /\ loc = href u)
      \/ (to_param req = EmptyString
          /\ exists A, String.length A = 10 /\ all_chars isUpperAlnum A = true
                       /\ loc = "https://www.amazon.in/dp/" +:+ A
                                +:+ "?tag=" +:+ encodeURIComponent (effective_tag req))).
Proof.
  destruct (to_param req) as [|c t] eqn:Hto.
  - rewrite (go_identifier _ _ Hto).
    destruct (truthy (extractAsin (asin_param req))) eqn:HA; [|discriminate].
    cbv zeta. simpl res. intros [= <- <-]. split; [reflexivity|right].
    split; [reflexivity|]. exists (extractAsin (asin_param req)).
    destruct (extractAsin_shape (asin_param req)) as [E|[L U]];
      [rewrite E in HA; discriminate|].
    split_and!; auto. rewrite build_url. f_equal. f_equal.
    apply encode_unreserved. revert U. apply all_chars_impl. intros x Hx.
    now apply alnum_unreserved, upper_alnum_is_alnum.
  - rewrite go_direct by (rewrite Hto; discriminate). rewrite Hto.
    destruct (test true re_scheme (String c t)) eqn:Ht; [|discriminate].
    destruct (URL_new (String c t)) as [u|] eqn:Hu; [|discriminate].
    destruct (bool_decide (allowed_host (toLowerCase (hostname u)))) eqn:Ha; [|discriminate].
    simpl res. intros [= <- <-]. split; [reflexivity|left].
    apply bool_decide_eq_true in Ha. apply test_scheme_spec in Ht.
    split_and!; [discriminate|assumption|eauto].
Qed.

Lemma redirect_targets_witness :
  let req := Request {[ "to" := "  "; "asin" := "x/product/b08n5wrwnw/"; "tag" := "a b" ]} ∅ None in
  res (go UrlModel.parse req) = Redirect 302 "https://www.amazon.in/dp/B08N5WRWNW?tag=a%20b"
  /\ to_param req = EmptyString.
Proof.
  intros req.
  assert (H : res (go UrlModel.parse req)
              = Redirect 302 "https://www.amazon.in/dp/B08N5WRWNW?tag=a%20b")
    by (vm_compute; reflexivity).
  split; [exact H|].
  destruct (redirect_targets UrlModel.parse req _ _ H) as (_ & [(Hne & _)|(He & _)]);
    [|exact He].
  exfalso. apply Hne. vm_compute. reflexivity.
Defined.

Lemma substring_prefix n s :
  String.length (substring 0 n s) = Nat.min n (String.length s)
  /\ exists rest, s = substring 0 n s +:+ rest.
Proof.
  revert s. induction n as [|n IH]; intros s.
  - rewrite substring_0_0. split; [reflexivity|now exists s].
  - destruct s as [|c s]; simpl; [split; [reflexivity|now exists EmptyString]|].
    destruct (IH s) as (L & rest & E). split; [now rewrite L|].
    exists rest. now rewrite <- E.
Qed.

Lemma or_null_slice n param :
  0 < n -> truncated n param (or_null (slice0 n (text param))).
Proof.
  intros Hn. unfold or_null, slice0.
  destruct (substring_prefix n (text param)) as (L & rest & E).
  destruct (substring 0 n (text param)) as [|c v] eqn:Ev; simpl.
  - destruct (text param); [reflexivity|]. simpl in L. lia.
  - split_and!; [discriminate|exact L|now exists rest].
Qed.

(** X9. The three free-text fields of a click document are bounded: [src] is
    the first 120 code units of its parameter, [created_by] the first 200 and
    [created_at] the first 80 (the whole parameter when it is shorter), and
    null when the parameter is absent or empty.  A long parameter is cut,
    never refused. *)
Theorem click_document_fields_truncated URL_new req d :
  d ∈ added (go URL_new req) ->
  truncated 120 (req_query req !! "src") (src d)
  /\ truncated 200 (req_query req !! "created_by") (created_by d)
  /\ truncated 80 (req_query req !! "created_at") (created_at d).
Proof.
  intros [_ ->]%added_only_on_redirect. simpl.
  split_and!; apply or_null_slice; lia.
Qed.

Lemma click_document_fields_truncated_witness :
  let long := "0123456789012345678901234567890123456789012345678901234567890123456789012345678901234567890123456789" in
  let req := Request {[ "asin" := "B08N5WRWNW"; "src" := long +:+ long;
                        "created_at" := long ]} ∅ None in
  exists d, added (go UrlModel.parse req) = [d]
            /\ src d = Some (long +:+ "01234567890123456789")
            /\ created_by d = None
            /\ truncated 80 (Some long) (created_at d).
Proof.
  intros long req.
  exists (clickDoc req "" "https://www.amazon.in/dp/B08N5WRWNW?tag=shop4me0e-21").
  assert (Ha : added (go UrlModel.parse req)
               = [clickDoc req "" "https://www.amazon.in/dp/B08N5WRWNW?tag=shop4me0e-21"])
    by (vm_compute; reflexivity).
  split_and!; [exact Ha|vm_compute; reflexivity..|].
  eapply (click_document_fields_truncated UrlModel.parse req).
  rewrite Ha. apply list_elem_of_here.
Defined.

(** X10. On the identifier branch the click document agrees with the
    redirect: its identifier is the one in the target, although it is
    extracted from the raw [asin] parameter and the target from the trimmed
    one, and its tag is the one the target carries. *)
Theorem identifier_click_document URL_new req d :
  to_param req = EmptyString ->
  d ∈ added (go URL_new req) ->
  exists A,
    asin d = Some A
    /\ tag d = effective_tag req
    /\ targetUrl d = "https://www.amazon.in/dp/" +:+ A
                     +:+ "?tag=" +:+ encodeURIComponent (tag d)
    /\ res (go URL_new req) = Redirect 302 (targetUrl d).
Proof.
  intros Hto [Hr Hd]%added_only_on_redirect.
  rewrite (go_identifier _ _ Hto) in Hr.
  destruct (truthy (extractAsin (asin_param req))) eqn:HA; [|discriminate].
  cbv zeta in Hr. simpl in Hr. injection Hr as Hr.
  assert (Ht : tag d = effective_tag req).
  { rewrite Hd. simpl. unfold effective_tag, or_else, DEFAULT_AFF_TAG.
    destruct (truthy (tag_param req)) eqn:T; [now rewrite T|reflexivity]. }
  exists (extractAsin (asin_param req)). split_and!.
  - rewrite Hd. simpl. unfold asin_param in *. rewrite extractAsin_trim in HA.
    rewrite extractAsin_trim. unfold or_else. rewrite HA. unfold or_null. now rewrite HA.
  - exact Ht.
  - rewrite Ht, <- Hr, build_url. f_equal. f_equal.
    apply encode_unreserved.
    destruct (extractAsin_shape (asin_param req)) as [E|[_ U]];
      [rewrite E in HA; discriminate|].
    revert U. apply all_chars_impl. intros x Hx.
    now apply alnum_unreserved, upper_alnum_is_alnum.
  - rewrite (go_identifier _ _ Hto), HA. cbv zeta. simpl. now rewrite Hr.
Qed.

Lemma identifier_click_document_witness :
  let req := Request {[ "asin" := "  /gp/product/b08n5wrwnw/ref=x  "; "tag" := " my tag " ]}
                     ∅ None in
  exists d A,
    added (go UrlModel.parse req) = [d]
    /\ asin d = Some A
    /\ targetUrl d = "https://www.amazon.in/dp/" +:+ A
                     +:+ "?tag=" +:+ encodeURIComponent (tag d).
Proof.
  intros req.
  pose (d := clickDoc req "my tag" "https://www.amazon.in/dp/B08N5WRWNW?tag=my%20tag").
  assert (Ha : added (go UrlModel.parse req) = [d]) by (vm_compute; reflexivity).
  destruct (identifier_click_document UrlModel.parse req d) as (A & H1 & _ & H3 & _).
  - vm_compute. reflexivity.
  - rewrite Ha. apply list_elem_of_here.
  - exists d, A. auto.
Defined.

(** ** isAllowedTarget *)

Lemma toLowerCase_app a b : toLowerCase (a +:+ b) = toLowerCase a +:+ toLowerCase b.
Proof.
  unfold toLowerCase. induction a as [|c a IH]; simpl; [reflexivity|]. now rewrite IH.
Qed.

Lemma toLowerCase_length s : String.length (toLowerCase s) = String.length s.
Proof. unfold toLowerCase. induction s as [|c s IH]; simpl; [reflexivity|]. now rewrite IH. Qed.

Ltac by_length H :=
  let L := fresh "L" in
  pose proof (f_equal String.length H) as L;
  rewrite ?append_length in L; simpl in L; try lia.

(** No configured host continues into another one. *)
Lemma allowed_host_no_extension a y :
  allowed_host a -> allowed_host (a +:+ y) -> y = EmptyString.
Proof.
  intros [-> | [-> | [-> | ->]]] [H | [H | [H | H]]]; by_length H;
    try (destruct y; [reflexivity|simpl in L; lia]); simpl in H; discriminate H.
Qed.

(** A configured host behind a label and a dot is configured only as
    [www.amazon.in] and [m.amazon.in]. *)
Lemma allowed_host_subdomain x a :
  allowed_host a -> allowed_host (x +:+ "." +:+ a) ->
  a = "amazon.in" /\ (x = "www" \/ x = "m").
Proof.
  intros [-> | [-> | [-> | ->]]] [H | [H | [H | H]]]; by_length H;
    repeat (destruct x as [|? x]; simpl in L; try lia);
    simpl in H; try discriminate H; simplify_eq; auto.
Qed.

Lemma isAllowedTarget_host h hr :
  isAllowedTarget (Some (MkURL h hr)) = true <-> allowed_host (toLowerCase h).
Proof.
  simpl. now rewrite or_else_empty, bool_decide_eq_true, allowlist_has.
Qed.

(** X11. The allowlist test refuses a missing URL, reads the hostname only
    and without regard to case, and matches whole hostnames: a hostname that
    continues an allowed one ([amazon.in.evil.example]) is refused, and of the
    hostnames that put a label and a dot before an allowed one only
    [www.amazon.in] and [m.amazon.in] pass. *)
Theorem isAllowedTarget_whole_hostname :
  isAllowedTarget None = false
  /\ (forall u u',
        toLowerCase (hostname u) = toLowerCase (hostname u') ->
        isAllowedTarget (Some u) = isAllowedTarget (Some u'))
  /\ (forall h y hr hr',
        isAllowedTarget (Some (MkURL h hr)) = true -> y <> EmptyString ->
        isAllowedTarget (Some (MkURL (h +:+ y) hr')) = false)
  /\ (forall x h hr hr',
        isAllowedTarget (Some (MkURL h hr)) = true ->
        isAllowedTarget (Some (MkURL (x +:+ "." +:+ h) hr')) = true ->
        toLowerCase h = "amazon.in" /\ (toLowerCase x = "www" \/ toLowerCase x = "m")).
Proof.
  split_and!.
  - reflexivity.
  - intros u u' E. unfold isAllowedTarget. rewrite !or_else_empty. now rewrite E.
  - intros h y hr hr' Hh Hy. apply isAllowedTarget_host in Hh.
    apply not_true_is_false. intros Ha. apply isAllowedTarget_host in Ha.
    rewrite toLowerCase_app in Ha.
    apply (allowed_host_no_extension _ _ Hh) in Ha.
    apply Hy. destruct y; [reflexivity|discriminate Ha].
  - intros x h hr hr' Hh Ha. apply isAllowedTarget_host in Hh, Ha.
    rewrite !toLowerCase_app in Ha. now apply allowed_host_subdomain.
Qed.

Lemma isAllowedTarget_whole_hostname_witness :
  isAllowedTarget (Some (MkURL "Amazon.IN" "https://amazon.in/")) = true
  /\ isAllowedTarget (Some (MkURL "Amazon.IN.evil.example" "https://amazon.in.evil.example/"))
     = false.
Proof.
  split; [vm_compute; reflexivity|].
  apply (proj1 (proj2 (proj2 isAllowedTarget_whole_hostname))
           "Amazon.IN" ".evil.example" "https://amazon.in/");
    [vm_compute; reflexivity|discriminate].
Defined.

(** ** encodeURIComponent and the built URL read back *)

Lemma unescape_escaped c r : unescape_head (escaped c +:+ r) = Some (c, r).
Proof. each_code_unit c. Qed.

Lemma encode_injective s s' :
  encodeURIComponent s = encodeURIComponent s' -> s = s'.
Proof.
  revert s'. induction s as [|c t IH]; intros [|c' t'] E.
  - reflexivity.
  - apply (f_equal unescape_head) in E. rewrite encode_cons, unescape_escaped in E.
    discriminate E.
  - apply (f_equal unescape_head) in E. rewrite encode_cons, unescape_escaped in E.
    discriminate E.
  - apply (f_equal unescape_head) in E. rewrite !encode_cons, !unescape_escaped in E.
    injection E as -> E. now rewrite (IH _ E).
Qed.

Lemma url_safe_not_question c : url_safe c = true -> CodeUnit.eqb c "?" = false.
Proof. each_code_unit c. Qed.

(** Two strings without question mark, each followed by one: the first
    question mark splits both alike. *)
Lemma split_at_question x x' r r' :
  all_chars url_safe x = true -> all_chars url_safe x' = true ->
  x +:+ String "?" r = x' +:+ String "?" r' -> x = x' /\ r = r'.
Proof.
  revert x'. induction x as [|c x IH]; intros [|c' x'] Hx Hx'; simpl in *.
  - now intros [= ->].
  - intros [= <- _]. apply andb_true_iff in Hx' as [Hc _].
    apply url_safe_not_question in Hc. discriminate Hc.
  - intros [= -> _]. apply andb_true_iff in Hx as [Hc _].
    apply url_safe_not_question in Hc. discriminate Hc.
  - intros [= -> E]. apply andb_true_iff in Hx as [_ Hx]. apply andb_true_iff in Hx' as [_ Hx'].
    destruct (IH _ Hx Hx' E) as [-> ->]. auto.
Qed.

Lemma append_cancel_l (p x y : string) : p +:+ x = p +:+ y -> x = y.
Proof. induction p as [|c p IH]; simpl; [auto|]. intros [= E]. auto. Qed.

(** X12. The built URL determines what it was built from: two calls that
    give the same URL had the same identifier argument and the same embedded
    tag (the trimmed tag, or the default for an empty or blank one). *)
Theorem buildAmazonAffiliateUrl_injective a tag a' tag' :
  buildAmazonAffiliateUrl a tag = buildAmazonAffiliateUrl a' tag' ->
  a = a' /\ embedded_tag tag = embedded_tag tag'.
Proof.
  rewrite !build_embedded. intros E%append_cancel_l.
  change ("?tag=" +:+ ?x) with (String "?" ("tag=" +:+ x)) in E.
  apply split_at_question in E as [Ea Et]; try apply encode_safe.
  apply append_cancel_l in Et. split; now apply encode_injective.
Qed.

Lemma buildAmazonAffiliateUrl_injective_witness :
  embedded_tag "  " = embedded_tag " shop4me0e-21 ".
Proof.
  apply (buildAmazonAffiliateUrl_injective "B08N5WRWNW" "  " "B08N5WRWNW" " shop4me0e-21 ").
  vm_compute. reflexivity.
Defined.

(** ** Short inputs *)

(** X13. An input of fewer than ten code units yields the empty result,
    whatever it holds. *)
Theorem extractAsin_short_input s :
  String.length s < 10 -> extractAsin s = EmptyString.
Proof.
  intros Hs. apply extractAsin_empty_iff, find_token_none.
  intros pre id suf (E & [L _] & _).
  destruct (trim_inside s) as (a & b & Ha).
  apply (f_equal String.length) in Ha. rewrite E, !append_length, L in Ha. lia.
Qed.

Lemma extractAsin_short_input_witness : extractAsin "/dp/B08N5" = EmptyString.
Proof. apply extractAsin_short_input. vm_compute. lia. Defined.
